(** * Cloud-Resource-Auto-Scaler front end: session, token and polling core

    A shallow embedding of the client-side logic of the dashboard:
    - [src/utils/storage.ts]            the Token Store and the JWT expiry check,
    - [src/context/AuthContext.tsx]     the session flag,
    - [src/api/axiosInstance.ts]        the request / response interceptors,
    - [src/services/*.ts]               the API service layer,
    - [src/pages/InstanceMetricsPage.tsx] the polling fetch cycle,
    - [src/utils/passwordValidation.ts] the password rules.

    JavaScript strings are sequences of UTF-16 code units, modelled as
    [list N]; [localStorage] and the request headers are finite maps from
    strings to strings; exceptions are explicit ([Completion]). *)

From Stdlib Require Import ZArith NArith List Bool Lia Ascii String.
From Stdlib Require Import SpecFloat.
From stdpp Require Import base option list gmap.

Set Warnings "-register-all".
Open Scope Z_scope.

(** ** JavaScript strings *)

Definition jsstring := list N.

(** A source-code string literal (ASCII) as a JavaScript string. *)
Definition lit (s : string) : jsstring :=
  map N_of_ascii (list_ascii_of_string s).

(** The code unit of an ASCII character. *)
Definition cu (a : ascii) : N := N_of_ascii a.

Definition is_char (a : ascii) (c : N) : bool := N.eqb c (cu a).

Definition in_range (lo hi : ascii) (c : N) : bool :=
  N.leb (cu lo) c && N.leb c (cu hi).

Definition jsstring_eqb (a b : jsstring) : bool :=
  bool_decide (a = b).

(** ** JavaScript values (the JSON fragment)

    Numbers are IEEE-754 binary64 values ([spec_float] at precision 53,
    [emax] 1024).  An object keeps its members in source order; a later
    duplicate key overrides an earlier one (see [get_member]). *)

Inductive JsValue : Type :=
| JNull
| JBool (b : bool)
| JNum (x : spec_float)
| JStr (s : jsstring)
| JArr (items : list JsValue)
| JObj (members : list (jsstring * JsValue)).

(** ** Completions: a value, or a thrown exception *)

Inductive exn : Type :=
| InvalidCharacterError   (* DOMException thrown by atob *)
| SyntaxError             (* thrown by JSON.parse *)
| TypeError               (* property read on null or undefined *)
| RangeError              (* engine resource exhaustion *)
| Error (arg : JsValue).   (* new Error(arg): the argument of the constructor;
                              the message of the error is String(arg), which
                              is arg itself when arg is a string *)

Inductive Completion (A : Type) : Type :=
| Normal (a : A)
| Throw (e : exn).
Arguments Normal {A} a.
Arguments Throw {A} e.

Definition bind {A B} (c : Completion A) (k : A -> Completion B) : Completion B :=
  match c with
  | Normal a => k a
  | Throw e => Throw e
  end.

(** [try { body } catch { handler }] *)
Definition try_catch {A} (body : Completion A) (handler : exn -> Completion A)
  : Completion A :=
  match body with
  | Normal a => Normal a
  | Throw e => handler e
  end.

Declare Scope js_scope.
Delimit Scope js_scope with js.
Notation "'let*' x ':=' c 'in' k" := (bind c (fun x => k))
  (at level 10, x name, c at level 100, k at level 200) : js_scope.
Open Scope js_scope.

(** ** String built-ins used by the token check *)

(** [String.prototype.split] with a one-character separator. *)
Fixpoint split_go (sep : N) (cur : jsstring) (s : jsstring) : list jsstring :=
  match s with
  | [] => [rev cur]
  | c :: rest =>
      if N.eqb c sep then rev cur :: split_go sep [] rest
      else split_go sep (c :: cur) rest
  end.

Definition split (sep : ascii) (s : jsstring) : list jsstring :=
  split_go (cu sep) [] s.

(** [s.replace(/x/g, 'y')] for single characters [x] and [y]. *)
Definition replace_all (x y : ascii) (s : jsstring) : jsstring :=
  map (fun c => if is_char x c then cu y else c) s.

(** [s.padEnd(target, '=')] with a one-character filler. *)
Definition padEnd (target : nat) (fill : ascii) (s : jsstring) : jsstring :=
  s ++ repeat (cu fill) (target - length s)%nat.

(** [Math.ceil(n / 4) * 4] on a string length. *)
Definition ceil4 (n : nat) : nat := (((n + 3) / 4) * 4)%nat.

(** ** [atob]: the forgiving-base64 decode of the HTML standard *)

Definition is_ascii_whitespace (c : N) : bool :=
  N.eqb c 9 || N.eqb c 10 || N.eqb c 12 || N.eqb c 13 || N.eqb c 32.

(** The 6-bit value of a character of the base64 alphabet. *)
Definition base64_value (c : N) : option N :=
  if in_range "A" "Z" c then Some (c - 65)%N
  else if in_range "a" "z" c then Some (c - 97 + 26)%N
  else if in_range "0" "9" c then Some (c - 48 + 52)%N
  else if is_char "+" c then Some 62%N
  else if is_char "/" c then Some 63%N
  else None.

Fixpoint base64_values (s : jsstring) : option (list N) :=
  match s with
  | [] => Some []
  | c :: rest =>
      match base64_value c, base64_values rest with
      | Some v, Some vs => Some (v :: vs)
      | _, _ => None
      end
  end.

(** Strips one or two trailing [=] (only called on lengths divisible by 4). *)
Definition strip_padding (s : jsstring) : jsstring :=
  match rev s with
  | a :: b :: rest =>
      if is_char "=" a then
        if is_char "=" b then rev rest else rev (b :: rest)
      else s
  | _ => s
  end.

(** Groups of four sextets give three bytes; a final group of two gives one
    byte and a final group of three gives two (the spare bits are dropped). *)
Fixpoint base64_bytes (vs : list N) : jsstring :=
  match vs with
  | a :: b :: c :: d :: rest =>
      let n := (a * 262144 + b * 4096 + c * 64 + d)%N in
      (n / 65536) :: ((n / 256) mod 256) :: (n mod 256) :: base64_bytes rest
  | [a; b; c] =>
      let n := (a * 4096 + b * 64 + c)%N in
      [(n / 1024); ((n / 4) mod 256)]
  | [a; b] =>
      let n := (a * 64 + b)%N in
      [(n / 16)]
  | _ => []
  end%N.

Definition atob (data : jsstring) : Completion jsstring :=
  let data := List.filter (fun c => negb (is_ascii_whitespace c)) data in
  let data := if Nat.eqb (length data mod 4) 0 then strip_padding data else data in
  if Nat.eqb (length data mod 4) 1 then Throw InvalidCharacterError
  else match base64_values data with
       | Some vs => Normal (base64_bytes vs)
       | None => Throw InvalidCharacterError
       end.

(** ** [JSON.parse] (ECMA-404 grammar) *)

Definition prec64 : Z := 53.
Definition emax64 : Z := 1024.

(** The binary64 nearest to [n / d] (ties to even), for [d > 0]. *)
Definition number_of_ratio (negative : bool) (n d : positive) : spec_float :=
  SFdiv prec64 emax64 (S754_finite negative n 0) (S754_finite false d 0).

(** The binary64 value of the integer [z]. *)
Definition number_of_Z (z : Z) : spec_float :=
  match z with
  | Z0 => S754_zero false
  | Zpos p => number_of_ratio false p 1
  | Zneg p => number_of_ratio true p 1
  end.

(** The value of a decimal literal [(-)mantissa * 10^exponent]. *)
Definition number_of_decimal (negative : bool) (mantissa : Z) (exponent : Z)
  : spec_float :=
  match mantissa with
  | Zpos m =>
      match exponent with
      | Z0 => number_of_ratio negative m 1
      | Zpos e => number_of_ratio negative (m * 10 ^ e)%positive 1
      | Zneg e => number_of_ratio negative m (10 ^ e)%positive
      end
  | _ => S754_zero negative
  end.

Fixpoint skip_ws (s : jsstring) : jsstring :=
  match s with
  | c :: rest =>
      if N.eqb c 9 || N.eqb c 10 || N.eqb c 13 || N.eqb c 32 then skip_ws rest
      else s
  | [] => []
  end.

Fixpoint strip_prefix (p s : jsstring) : option jsstring :=
  match p, s with
  | [], _ => Some s
  | a :: p', b :: s' => if N.eqb a b then strip_prefix p' s' else None
  | _ :: _, [] => None
  end.

Definition is_digit (c : N) : bool := in_range "0" "9" c.

(** The longest prefix of decimal digits, as digit values, and the rest. *)
Fixpoint take_digits (s : jsstring) : list Z * jsstring :=
  match s with
  | c :: rest =>
      if is_digit c then
        let '(ds, r) := take_digits rest in (Z.of_N (c - 48) :: ds, r)
      else ([], s)
  | [] => ([], [])
  end.

Definition digits_value (ds : list Z) : Z :=
  fold_left (fun acc d => 10 * acc + d) ds 0.

(** int: [0] or a non-zero digit followed by digits. *)
Definition parse_int (s : jsstring) : option (list Z * jsstring) :=
  match s with
  | c :: rest =>
      if is_char "0" c then Some ([0], rest)
      else if is_digit c then Some (take_digits s)
      else None
  | [] => None
  end.

(** At least one digit. *)
Definition digits1 (s : jsstring) : option (list Z * jsstring) :=
  match take_digits s with
  | ([], _) => None
  | (ds, r) => Some (ds, r)
  end.

(** frac: nothing, or [.] and at least one digit. *)
Definition parse_frac (s : jsstring) : option (list Z * jsstring) :=
  match s with
  | c :: rest => if is_char "." c then digits1 rest else Some ([], s)
  | [] => Some ([], [])
  end.

(** An optional sign; [true] for [-]. *)
Definition take_sign (s : jsstring) : bool * jsstring :=
  match s with
  | sg :: r =>
      if is_char "-" sg then (true, r)
      else if is_char "+" sg then (false, r)
      else (false, s)
  | [] => (false, [])
  end.

(** exp: nothing, or [e]/[E], an optional sign and at least one digit. *)
Definition parse_exp (s : jsstring) : option (Z * jsstring) :=
  match s with
  | c :: rest =>
      if is_char "e" c || is_char "E" c then
        let '(neg, rest') := take_sign rest in
        match digits1 rest' with
        | None => None
        | Some (ds, r) =>
            Some (if neg then - digits_value ds else digits_value ds, r)
        end
      else Some (0, s)
  | [] => Some (0, [])
  end.

Definition parse_number (s : jsstring) : option (spec_float * jsstring) :=
  let '(neg, s1) :=
    match s with
    | c :: rest => if is_char "-" c then (true, rest) else (false, s)
    | [] => (false, [])
    end in
  match parse_int s1 with
  | None => None
  | Some (ip, s2) =>
      match parse_frac s2 with
      | None => None
      | Some (fp, s3) =>
          match parse_exp s3 with
          | None => None
          | Some (e, s4) =>
              Some (number_of_decimal neg (digits_value (ip ++ fp))
                      (e - Z.of_nat (length fp)), s4)
          end
      end
  end.

Definition hex_value (c : N) : option N :=
  if is_digit c then Some (c - 48)%N
  else if in_range "a" "f" c then Some (c - 97 + 10)%N
  else if in_range "A" "F" c then Some (c - 65 + 10)%N
  else None.

Definition hex4 (a b c d : N) : option N :=
  match hex_value a, hex_value b, hex_value c, hex_value d with
  | Some x, Some y, Some z, Some w => Some (x * 4096 + y * 256 + z * 16 + w)%N
  | _, _, _, _ => None
  end.

Definition quote : N := 34.
Definition backslash : N := 92.

(** The characters of a string after its opening quote, up to and including
    the closing quote; [acc] holds the decoded code units in reverse. *)
Fixpoint parse_string_body (acc : jsstring) (s : jsstring)
  : option (jsstring * jsstring) :=
  match s with
  | [] => None
  | c :: rest =>
      if N.eqb c quote then Some (rev acc, rest)
      else if N.eqb c backslash then
        match rest with
        | e :: rest1 =>
            if N.eqb e quote || N.eqb e backslash || is_char "/" e
            then parse_string_body (e :: acc) rest1
            else if is_char "b" e then parse_string_body (8%N :: acc) rest1
            else if is_char "f" e then parse_string_body (12%N :: acc) rest1
            else if is_char "n" e then parse_string_body (10%N :: acc) rest1
            else if is_char "r" e then parse_string_body (13%N :: acc) rest1
            else if is_char "t" e then parse_string_body (9%N :: acc) rest1
            else if is_char "u" e then
              match rest1 with
              | h1 :: h2 :: h3 :: h4 :: rest2 =>
                  match hex4 h1 h2 h3 h4 with
                  | Some u => parse_string_body (u :: acc) rest2
                  | None => None
                  end
              | _ => None
              end
            else None
        | [] => None
        end
      else if N.ltb c 32 then None
      else parse_string_body (c :: acc) rest
  end.

Definition ParseResult : Type := Completion (JsValue * jsstring).

(** Recursive descent.  [fuel] bounds the nesting; running out of it is
    reported as [RangeError] and never happens with the fuel that
    [JSON_parse] supplies ([JSON_parse_fuel_enough] below). *)
Fixpoint parse_value (fuel : nat) (s : jsstring) : ParseResult :=
  match fuel with
  | O => Throw RangeError
  | S fuel' =>
      match skip_ws s with
      | [] => Throw SyntaxError
      | c :: rest =>
          if is_char "{" c then
            match skip_ws rest with
            | c' :: rest' =>
                if is_char "}" c' then Normal (JObj [], rest')
                else parse_members fuel' [] rest
            | [] => Throw SyntaxError
            end
          else if is_char "[" c then
            match skip_ws rest with
            | c' :: rest' =>
                if is_char "]" c' then Normal (JArr [], rest')
                else parse_elements fuel' [] rest
            | [] => Throw SyntaxError
            end
          else if N.eqb c quote then
            match parse_string_body [] rest with
            | Some (str, r) => Normal (JStr str, r)
            | None => Throw SyntaxError
            end
          else if is_char "t" c then
            match strip_prefix (lit "rue") rest with
            | Some r => Normal (JBool true, r)
            | None => Throw SyntaxError
            end
          else if is_char "f" c then
            match strip_prefix (lit "alse") rest with
            | Some r => Normal (JBool false, r)
            | None => Throw SyntaxError
            end
          else if is_char "n" c then
            match strip_prefix (lit "ull") rest with
            | Some r => Normal (JNull, r)
            | None => Throw SyntaxError
            end
          else
            match parse_number (c :: rest) with
            | Some (x, r) => Normal (JNum x, r)
            | None => Throw SyntaxError
            end
      end
  end
with parse_elements (fuel : nat) (acc : list JsValue) (s : jsstring) : ParseResult :=
  match fuel with
  | O => Throw RangeError
  | S fuel' =>
      match parse_value fuel' s with
      | Throw e => Throw e
      | Normal (v, r) =>
          match skip_ws r with
          | c :: rest =>
              if is_char "," c then parse_elements fuel' (v :: acc) rest
              else if is_char "]" c then Normal (JArr (rev (v :: acc)), rest)
              else Throw SyntaxError
          | [] => Throw SyntaxError
          end
      end
  end
with parse_members (fuel : nat) (acc : list (jsstring * JsValue)) (s : jsstring)
  : ParseResult :=
  match fuel with
  | O => Throw RangeError
  | S fuel' =>
      match skip_ws s with
      | q :: s1 =>
          if N.eqb q quote then
            match parse_string_body [] s1 with
            | Some (key, s2) =>
                match skip_ws s2 with
                | colon :: s3 =>
                    if is_char ":" colon then
                      match parse_value fuel' s3 with
                      | Throw e => Throw e
                      | Normal (v, r) =>
                          match skip_ws r with
                          | c :: rest =>
                              if is_char "," c
                              then parse_members fuel' ((key, v) :: acc) rest
                              else if is_char "}" c
                              then Normal (JObj (rev ((key, v) :: acc)), rest)
                              else Throw SyntaxError
                          | [] => Throw SyntaxError
                          end
                      end
                    else Throw SyntaxError
                | [] => Throw SyntaxError
                end
            | None => Throw SyntaxError
            end
          else Throw SyntaxError
      | [] => Throw SyntaxError
      end
  end.

(** [JSON.parse(text)]: one value, surrounded by optional white space. *)
Definition JSON_parse (text : jsstring) : Completion JsValue :=
  match parse_value (2 * length text + 1) text with
  | Throw e => Throw e
  | Normal (v, rest) =>
      match skip_ws rest with
      | [] => Normal v
      | _ :: _ => Throw SyntaxError
      end
  end.

(** ** The fragment of JavaScript evaluation the sources use *)

(** [ToBoolean]: what [!v], [v && ...] and [v || ...] test. *)
Definition ToBoolean (v : JsValue) : bool :=
  match v with
  | JNull => false
  | JBool b => b
  | JNum (S754_zero _) => false
  | JNum S754_nan => false
  | JNum _ => true
  | JStr [] => false
  | JStr (_ :: _) => true
  | JArr _ => true
  | JObj _ => true
  end.

(** The value bound to [key] in an object: the last member wins. *)
Fixpoint get_member (key : jsstring) (members : list (jsstring * JsValue))
  : option JsValue :=
  match members with
  | [] => None
  | (k, v) :: rest =>
      match get_member key rest with
      | Some v' => Some v'
      | None => if jsstring_eqb k key then Some v else None
      end
  end.

(** [v.name] for a [name] that no prototype defines (such as [exp], [error],
    [instances]): [None] is [undefined].  Reading a property of [null]
    throws. *)
Definition get_prop (v : JsValue) (name : jsstring) : Completion (option JsValue) :=
  match v with
  | JNull => Throw TypeError
  | JObj members => Normal (get_member name members)
  | _ => Normal None
  end.

(** [x > y] on numbers. *)
Definition number_gt (x y : spec_float) : bool := SFltb y x.

(** [Math.floor]. *)
Definition Math_floor (x : spec_float) : spec_float :=
  match x with
  | S754_finite s m e =>
      if 0 <=? e then x
      else number_of_Z (Z.shiftr (if s then Zneg m else Zpos m) (- e))
  | _ => x
  end.

(** [x / y] on numbers. *)
Definition number_div (x y : spec_float) : spec_float := SFdiv prec64 emax64 x y.

(** ** [src/utils/storage.ts] *)

Module storage.

(** [localStorage] is a finite map from keys to values,
    [gmap jsstring jsstring]. *)

Definition TOKEN_KEY : jsstring := lit "auth_token".

Definition setToken (token : jsstring) (ls : gmap jsstring jsstring) : gmap jsstring jsstring :=
  <[TOKEN_KEY := token]> ls.

Definition getToken (ls : gmap jsstring jsstring) : option jsstring :=
  ls !! TOKEN_KEY.

Definition removeToken (ls : gmap jsstring jsstring) : gmap jsstring jsstring :=
  delete TOKEN_KEY ls.

(** The body of the [try] block of [decodeJwtPayload]. *)
Definition decodeJwtPayload_try (token : jsstring) : Completion JsValue :=
  let parts := split "." token in
  match parts with
  | [_; base64Url; _] =>
      let base64 := replace_all "_" "/" (replace_all "-" "+" base64Url) in
      let padded := padEnd (ceil4 (length base64)) "=" base64 in
      let* json := atob padded in
      JSON_parse json
  | _ => Normal JNull
  end.

(** The result is the decoded payload, or [JNull] for the [null] that the
    [catch] block returns. *)
Definition decodeJwtPayload (token : jsstring) : Completion JsValue :=
  try_catch (decodeJwtPayload_try token) (fun _ => Normal JNull).

(** [Math.floor(Date.now() / 1000)], for the clock reading [now]
    (milliseconds since the epoch). *)
Definition nowSeconds (now : Z) : spec_float :=
  Math_floor (number_div (number_of_Z now) (number_of_Z 1000)).

Definition isTokenValid (now : Z) (token : jsstring) : Completion bool :=
  let* payload := decodeJwtPayload token in
  if negb (ToBoolean payload) then Normal false
  else
    let* exp := get_prop payload (lit "exp") in
    match exp with
    | Some (JNum exp) => Normal (number_gt exp (nowSeconds now))
    | _ => Normal true
    end.

Definition isAuthenticated (now : Z) (ls : gmap jsstring jsstring) : Completion bool :=
  match getToken ls with
  | None => Normal false
  | Some [] => Normal false
  | Some token => isTokenValid now token
  end.

End storage.

(** ** [src/utils/passwordValidation.ts] *)

Module passwordValidation.

Record PasswordRuleResult : Type := {
  minLength : bool;
  uppercase : bool;
  lowercase : bool;
  number : bool;
  special : bool
}.

(** [/[class]/.test(s)]: some code unit of [s] is in the class. *)
Definition test_class (class : N -> bool) (s : jsstring) : bool :=
  existsb class s.

Definition validatePasswordRules (password : jsstring) : PasswordRuleResult := {|
  minLength := (8 <=? length password)%nat;
  uppercase := test_class (in_range "A" "Z") password;
  lowercase := test_class (in_range "a" "z") password;
  number := test_class (in_range "0" "9") password;
  special :=
    test_class (fun c => negb (in_range "A" "Z" c || in_range "a" "z" c
                               || in_range "0" "9" c)) password
|}.

(** [Object.values(rules)], in property order. *)
Definition values (rules : PasswordRuleResult) : list bool :=
  [minLength rules; uppercase rules; lowercase rules; number rules;
   special rules].

Definition isPasswordValid (password : jsstring) : bool :=
  let rules := validatePasswordRules password in
  forallb (fun b => b) (values rules).

End passwordValidation.

(** ** [src/api/axiosInstance.ts] *)

Module axiosInstance.

Record RequestConfig : Type := {
  method : jsstring;
  url : jsstring;
  headers : gmap jsstring jsstring;
  params : list (jsstring * JsValue);
  data : option JsValue
}.

(** [response_data] is [None] when the body is [undefined]. *)
Record AxiosResponse : Type := {
  status : Z;
  response_data : option JsValue
}.

(** [response] is [None] when the request got no response (network
    failure, timeout). *)
Record AxiosError : Type := {
  response : option AxiosResponse
}.

(** What the interceptors see of the browser: [localStorage],
    [window.location.pathname], and the values assigned to
    [window.location.href] (oldest first).  An assignment starts a
    navigation; the path of the running page does not change. *)
Record Browser : Type := {
  localStorage : gmap jsstring jsstring;
  pathname : jsstring;
  hrefAssigned : list jsstring
}.

(** The instance is created with [Content-Type: application/json]. *)
Definition mkConfig (method url : jsstring) (params : list (jsstring * JsValue))
    (data : option JsValue) : RequestConfig := {|
  method := method;
  url := url;
  headers := {[ lit "Content-Type" := lit "application/json" ]};
  params := params;
  data := data
|}.

(** Request interceptor.  [config.headers] is always an object for an
    [InternalAxiosRequestConfig], so [token && config.headers] tests the
    token only. *)
Definition onRequest (b : Browser) (config : RequestConfig) : RequestConfig :=
  match storage.getToken (localStorage b) with
  | Some ((_ :: _) as token) =>
      {| method := method config;
         url := url config;
         headers := <[ lit "Authorization" := lit "Bearer " ++ token ]> (headers config);
         params := params config;
         data := data config |}
  | _ => config
  end.

(** [error.response?.status === 401] *)
Definition is401 (error : AxiosError) : bool :=
  match response error with
  | Some r => status r =? 401
  | None => false
  end.

(** Response interceptor, rejection handler: the new browser state and the
    error the returned promise is rejected with. *)
Definition onResponseError (error : AxiosError) (b : Browser)
  : Browser * AxiosError :=
  let b' :=
    if is401 error then
      let b1 := {| localStorage := storage.removeToken (localStorage b);
                   pathname := pathname b;
                   hrefAssigned := hrefAssigned b |} in
      if negb (jsstring_eqb (pathname b1) (lit "/login")) then
        {| localStorage := localStorage b1;
           pathname := pathname b1;
           hrefAssigned := hrefAssigned b1 ++ [lit "/login"] |}
      else b1
    else b in
  (b', error).

(** Response interceptor, success handler. *)
Definition onResponse (r : AxiosResponse) : AxiosResponse := r.

(** The backend as a script of answers to the successive requests, and the
    requests that were sent. *)
Inductive Answer : Type :=
| Responds (r : AxiosResponse)
| NetworkError.

Record World : Type := {
  browser : Browser;
  backend : list Answer;
  sent : list RequestConfig
}.

Inductive Settled : Type :=
| Fulfilled (r : AxiosResponse)
| Rejected (e : AxiosError).

(** The default [validateStatus] of axios. *)
Definition validateStatus (status : Z) : bool :=
  (200 <=? status) && (status <? 300).

(** Axios' [settle]: [if (!response.status || validateStatus(response.status))
    resolve(response) else reject(...)].  A response without a status
    (status 0) is fulfilled, like a 2xx one; any other is rejected. *)
Definition settle (a : Answer) : Settled :=
  match a with
  | Responds r =>
      if (status r =? 0) || validateStatus (status r) then Fulfilled r
      else Rejected {| response := Some r |}
  | NetworkError => Rejected {| response := None |}
  end.

(** One request through the instance: request interceptor, transport,
    response interceptor. *)
Definition request (config : RequestConfig) (w : World) : World * Settled :=
  let config' := onRequest (browser w) config in
  let '(answer, rest) :=
    match backend w with
    | a :: rest => (a, rest)
    | [] => (NetworkError, [])
    end in
  match settle answer with
  | Fulfilled r =>
      ({| browser := browser w; backend := rest; sent := sent w ++ [config'] |},
       Fulfilled (onResponse r))
  | Rejected e =>
      let '(b', e') := onResponseError e (browser w) in
      ({| browser := b'; backend := rest; sent := sent w ++ [config'] |},
       Rejected e')
  end.

End axiosInstance.

(** ** [src/services/authService.ts], [instanceService.ts], [metricsService.ts] *)

Module services.
Import axiosInstance.

(** What a [catch (error: any)] block may receive: the rejection of the
    request, or an exception thrown while reading the response. *)
Inductive Caught : Type :=
| CaughtAxios (e : AxiosError)
| CaughtOther (e : exn).

(** [error.response?.data?.error] ([None] is [undefined]). *)
Definition backendError (error : Caught) : option JsValue :=
  match error with
  | CaughtAxios e =>
      match response e with
      | Some r =>
          match response_data r with
          | Some (JObj members) => get_member (lit "error") members
          | _ => None
          end
      | None => None
      end
  | CaughtOther _ => None
  end.

(** [error.response?.data?.error || fallback] *)
Definition errorMessage (fallback : jsstring) (error : Caught) : JsValue :=
  match backendError error with
  | Some v => if ToBoolean v then v else JStr fallback
  | None => JStr fallback
  end.

(** [response.data] *)
Definition whole (d : option JsValue) : Completion (option JsValue) :=
  Normal d.

(** [response.data.name] *)
Definition field (name : string) (d : option JsValue)
  : Completion (option JsValue) :=
  match d with
  | Some v => get_prop v (lit name)
  | None => Throw TypeError
  end.

(** The common shape of every service function:
    [try { const response = await axiosInstance...; return select(response.data) }
     catch (error) { throw new Error(error.response?.data?.error || fallback) }] *)
Definition api_call (config : RequestConfig)
    (select : option JsValue -> Completion (option JsValue))
    (fallback : string) (w : World) : World * Completion (option JsValue) :=
  let '(w', settled) := request config w in
  let body :=
    match settled with
    | Fulfilled r =>
        match select (response_data r) with
        | Normal v => inl v
        | Throw e => inr (CaughtOther e)
        end
    | Rejected e => inr (CaughtAxios e)
    end in
  match body with
  | inl v => (w', Normal v)
  | inr error => (w', Throw (Error (errorMessage (lit fallback) error)))
  end.

Definition credentials (email password : jsstring) : JsValue :=
  JObj [(lit "email", JStr email); (lit "password", JStr password)].

Module authService.
Definition getUserProfile :=
  api_call (mkConfig (lit "get") (lit "/api/auth/me") [] None)
    whole "Failed to fetch user profile.".
Definition login (email password : jsstring) :=
  api_call (mkConfig (lit "post") (lit "/api/auth/login") []
              (Some (credentials email password)))
    whole "Login failed. Please try again.".
Definition register (email password : jsstring) :=
  api_call (mkConfig (lit "post") (lit "/api/auth/register") []
              (Some (credentials email password)))
    whole "Registration failed. Please try again.".
End authService.

Module instanceService.
Definition getInstances :=
  api_call (mkConfig (lit "get") (lit "/api/instances/") [] None)
    (field "instances") "Failed to fetch instances.".
Definition registerInstance (data : JsValue) :=
  api_call (mkConfig (lit "post") (lit "/api/instances/") [] (Some data))
    (field "instance") "Failed to register instance.".
Definition startMonitoring (instanceId : jsstring) :=
  api_call (mkConfig (lit "patch")
              (lit "/api/instances/" ++ instanceId ++ lit "/monitor/start")
              [] None)
    (field "message") "Failed to start monitoring.".
Definition stopMonitoring (instanceId : jsstring) :=
  api_call (mkConfig (lit "patch")
              (lit "/api/instances/" ++ instanceId ++ lit "/monitor/stop")
              [] None)
    (field "message") "Failed to stop monitoring.".
Definition deleteInstance (instanceId : jsstring) :=
  api_call (mkConfig (lit "delete") (lit "/api/instances/" ++ instanceId)
              [] None)
    (field "message") "Failed to delete instance.".
End instanceService.

Module metricsService.
Definition getMetrics (instanceId : jsstring) (limit : spec_float) :=
  api_call (mkConfig (lit "get") (lit "/api/metrics/" ++ instanceId)
              [(lit "limit", JNum limit)] None)
    (field "metrics") "Failed to fetch metrics.".
Definition getScalingDecisions (instanceId : jsstring)
    (page pageSize : spec_float) :=
  api_call (mkConfig (lit "get") (lit "/api/metrics/decisions/" ++ instanceId)
              [(lit "page", JNum page); (lit "page_size", JNum pageSize)] None)
    whole "Failed to fetch scaling decisions.".
Definition simulateMetrics (payload : JsValue) :=
  api_call (mkConfig (lit "post") (lit "/api/metrics/simulate") []
              (Some payload))
    (field "message") "Failed to simulate metrics.".
End metricsService.

(** The operations of the service layer, with their arguments. *)
Inductive Operation : Type :=
| GetUserProfile
| Login (email password : jsstring)
| Register (email password : jsstring)
| GetInstances
| RegisterInstance (data : JsValue)
| StartMonitoring (instanceId : jsstring)
| StopMonitoring (instanceId : jsstring)
| DeleteInstance (instanceId : jsstring)
| GetMetrics (instanceId : jsstring) (limit : spec_float)
| GetScalingDecisions (instanceId : jsstring) (page pageSize : spec_float)
| SimulateMetrics (payload : JsValue).

Definition perform (op : Operation) : World -> World * Completion (option JsValue) :=
  match op with
  | GetUserProfile => authService.getUserProfile
  | Login e p => authService.login e p
  | Register e p => authService.register e p
  | GetInstances => instanceService.getInstances
  | RegisterInstance d => instanceService.registerInstance d
  | StartMonitoring i => instanceService.startMonitoring i
  | StopMonitoring i => instanceService.stopMonitoring i
  | DeleteInstance i => instanceService.deleteInstance i
  | GetMetrics i l => metricsService.getMetrics i l
  | GetScalingDecisions i p ps => metricsService.getScalingDecisions i p ps
  | SimulateMetrics p => metricsService.simulateMetrics p
  end.

(** The fallback phrase of each operation. *)
Definition fallback_phrase (op : Operation) : string :=
  match op with
  | GetUserProfile => "Failed to fetch user profile."
  | Login _ _ => "Login failed. Please try again."
  | Register _ _ => "Registration failed. Please try again."
  | GetInstances => "Failed to fetch instances."
  | RegisterInstance _ => "Failed to register instance."
  | StartMonitoring _ => "Failed to start monitoring."
  | StopMonitoring _ => "Failed to stop monitoring."
  | DeleteInstance _ => "Failed to delete instance."
  | GetMetrics _ _ => "Failed to fetch metrics."
  | GetScalingDecisions _ _ _ => "Failed to fetch scaling decisions."
  | SimulateMetrics _ => "Failed to simulate metrics."
  end.

(** The answer the backend gives to the next request. *)
Definition nextAnswer (w : World) : Answer :=
  match backend w with
  | a :: _ => a
  | [] => NetworkError
  end.

End services.

(** ** [src/context/AuthContext.tsx] *)

Module AuthContext.
Import axiosInstance.

(** The running application: the browser, and the provider's state
    variable [isAuthenticated]. *)
Record App : Type := {
  browser : Browser;
  isAuthenticated : bool
}.

(** [useState<boolean>(checkAuth())] *)
Definition initialState (now : Z) (ls : gmap jsstring jsstring) : Completion bool :=
  storage.isAuthenticated now ls.

(** The mount effect: [const token = getToken(); setIsAuthenticated(!!token)]. *)
Definition mountEffect (ls : gmap jsstring jsstring) (current : bool) : bool :=
  match storage.getToken ls with
  | Some (_ :: _) => true
  | _ => false
  end.

(** Startup: the first render followed by the mount effect. *)
Definition mount (now : Z) (b : Browser) : Completion App :=
  let* flag := initialState now (localStorage b) in
  Normal {| browser := b;
            isAuthenticated := mountEffect (localStorage b) flag |}.

Definition withStorage (ls : gmap jsstring jsstring) (b : Browser) : Browser :=
  {| localStorage := ls; pathname := pathname b; hrefAssigned := hrefAssigned b |}.

Definition login (token : jsstring) (app : App) : App :=
  {| browser := withStorage (storage.setToken token (localStorage (browser app)))
                  (browser app);
     isAuthenticated := true |}.

Definition logout (app : App) : App :=
  {| browser := withStorage (storage.removeToken (localStorage (browser app)))
                  (browser app);
     isAuthenticated := false |}.

(** Client-side routing ([navigate(path)]): only the path changes. *)
Definition navigate (path : jsstring) (app : App) : App :=
  {| browser := {| localStorage := localStorage (browser app);
                   pathname := path;
                   hrefAssigned := hrefAssigned (browser app) |};
     isAuthenticated := isAuthenticated app |}.

(** The document load that an assignment to [window.location.href] causes:
    the page at [path] starts and the provider mounts again. *)
Definition pageLoad (now : Z) (path : jsstring) (b : Browser) : Completion App :=
  mount now {| localStorage := localStorage b; pathname := path; hrefAssigned := [] |}.

(** The HTTP client handles [error]; the provider's state is not within
    its reach. *)
Definition respond (error : AxiosError) (app : App) : App * AxiosError :=
  let '(b', e) := onResponseError error (browser app) in
  ({| browser := b'; isAuthenticated := isAuthenticated app |}, e).

(** Forced logout: the response interceptor runs on a 401 error, then the
    browser performs the navigation it asked for, if any. *)
Definition forcedLogout (now : Z) (error : AxiosError) (app : App) : Completion App :=
  let app' := fst (respond error app) in
  match rev (hrefAssigned (browser app')) with
  | path :: _ => pageLoad now path (browser app')
  | [] => Normal app'
  end.

(** Several failed responses, handled one after the other by the running
    page. *)
Definition respondAll (errors : list AxiosError) (app : App) : App :=
  fold_left (fun a e => fst (respond e a)) errors app.

(** States reachable from startup.  The running page logs in and out,
    routes, and has its failed responses handled by the HTTP client
    ([reach_respond]); the page keeps running after that, with the
    provider's state as it was.  Apart from that the browser may carry out
    the navigation that was last assigned to [window.location.href]
    ([reach_pageLoad]).  [handled] says which response errors may arrive in
    which states. *)
Inductive reachable (handled : AxiosError -> App -> bool) : App -> Prop :=
| reach_mount now b app :
    hrefAssigned b = [] -> mount now b = Normal app -> reachable handled app
| reach_login token app :
    reachable handled app -> reachable handled (login token app)
| reach_logout app :
    reachable handled app -> reachable handled (logout app)
| reach_navigate path app :
    reachable handled app -> reachable handled (navigate path app)
| reach_respond error app :
    reachable handled app -> handled error app = true ->
    reachable handled (fst (respond error app))
| reach_pageLoad now path earlier app app' :
    reachable handled app ->
    hrefAssigned (browser app) = earlier ++ [path] ->
    pageLoad now path (browser app) = Normal app' ->
    reachable handled app'.



Definition awayFromLogin (app : App) : bool :=
  negb (jsstring_eqb (pathname (browser app)) (lit "/login")).

End AuthContext.

(** ** [src/pages/InstanceMetricsPage.tsx]: the fetch cycle *)

Module InstanceMetricsPage.

Record PageState : Type := {
  metrics : JsValue;
  decisions : JsValue;
  loading : bool;
  error : option jsstring   (* [None] is [null] *)
}.

(** How [await Promise.all([getMetrics(...), getScalingDecisions(...)])]
    ends: with both results, or with the [message] of the first rejection. *)
Inductive FetchResult : Type :=
| Loaded (metricsData decisionsData : JsValue)
| Failed (message : jsstring).

Definition setLoading (v : bool) (st : PageState) : PageState :=
  {| metrics := metrics st; decisions := decisions st; loading := v;
     error := error st |}.
Definition setError (v : option jsstring) (st : PageState) : PageState :=
  {| metrics := metrics st; decisions := decisions st; loading := loading st;
     error := v |}.
Definition setMetrics (v : JsValue) (st : PageState) : PageState :=
  {| metrics := v; decisions := decisions st; loading := loading st;
     error := error st |}.
Definition setDecisions (v : JsValue) (st : PageState) : PageState :=
  {| metrics := metrics st; decisions := v; loading := loading st;
     error := error st |}.

(** The part of [fetchData] that runs before the [await]. *)
Definition fetchData_begin (isBackgroundRefresh : bool) (st : PageState) : PageState :=
  let st := if negb isBackgroundRefresh then setLoading true st else st in
  setError None st.

(** The part that runs once the requests have settled. *)
Definition fetchData_settle (isBackgroundRefresh : bool) (result : FetchResult)
    (st : PageState) : PageState :=
  let st :=
    match result with
    | Loaded metricsData decisionsData =>
        setError None (setDecisions decisionsData (setMetrics metricsData st))
    | Failed message =>
        if negb isBackgroundRefresh then setError (Some message) st else st
    end in
  if negb isBackgroundRefresh then setLoading false st else st.

(** [instanceId] is [None] when the route has no such parameter. *)
Definition fetchData (instanceId : option jsstring) (isBackgroundRefresh : bool)
    (result : FetchResult) (st : PageState) : PageState :=
  match instanceId with
  | None | Some [] => st
  | Some (_ :: _) =>
      fetchData_settle isBackgroundRefresh result
        (fetchData_begin isBackgroundRefresh st)
  end.

End InstanceMetricsPage.

(** ** Regular expressions

    The patterns of the sources are anchored at both ends and use classes,
    sequence and repetition only, so [pattern.test(s)] asks whether the whole
    of [s] is in the language of the pattern.  [matches] decides it by
    derivatives. *)

Module regex.

Inductive re : Type :=
| Never                       (* matches nothing *)
| Empty                       (* the empty string *)
| Class (p : N -> bool)       (* one code unit of a class *)
| Seq (r1 r2 : re)
| Alt (r1 r2 : re)
| Star (r : re).

(** [r+] *)
Definition Plus (r : re) : re := Seq r (Star r).

(** [r{2,}] *)
Definition AtLeast2 (r : re) : re := Seq r (Seq r (Star r)).

(** One given character. *)
Definition Char (a : ascii) : re := Class (is_char a).

Fixpoint nullable (r : re) : bool :=
  match r with
  | Never => false
  | Empty => true
  | Class _ => false
  | Seq r1 r2 => nullable r1 && nullable r2
  | Alt r1 r2 => nullable r1 || nullable r2
  | Star _ => true
  end.

Fixpoint deriv (c : N) (r : re) : re :=
  match r with
  | Never => Never
  | Empty => Never
  | Class p => if p c then Empty else Never
  | Seq r1 r2 =>
      if nullable r1 then Alt (Seq (deriv c r1) r2) (deriv c r2)
      else Seq (deriv c r1) r2
  | Alt r1 r2 => Alt (deriv c r1) (deriv c r2)
  | Star r1 => Seq (deriv c r1) (Star r1)
  end.

Fixpoint matches (r : re) (s : jsstring) : bool :=
  match s with
  | [] => nullable r
  | c :: rest => matches (deriv c r) rest
  end.

(** The language of a pattern. *)
Inductive lang : re -> jsstring -> Prop :=
| lang_empty : lang Empty []
| lang_class p c : p c = true -> lang (Class p) [c]
| lang_seq r1 r2 s1 s2 : lang r1 s1 -> lang r2 s2 -> lang (Seq r1 r2) (s1 ++ s2)
| lang_alt_l r1 r2 s : lang r1 s -> lang (Alt r1 r2) s
| lang_alt_r r1 r2 s : lang r2 s -> lang (Alt r1 r2) s
| lang_star_nil r : lang (Star r) []
| lang_star_app r s1 s2 : lang r s1 -> lang (Star r) s2 -> lang (Star r) (s1 ++ s2).

End regex.

(** ** [src/App.tsx] and [src/components/PublicRoute.tsx]: the login screen

    [<Route path="/login" element={<PublicRoute><LoginPage/></PublicRoute>}/>].
    React Router compiles the path of a route to a pattern that ignores
    the case of letters and allows trailing slashes, here
    [/^\/login\/*$/i]; [PublicRoute] renders the page unless the session is
    authenticated. *)

Module routes.




End routes.

(** ** [src/services/authService.ts]: the input checks *)

Module authChecks.

(** [[a-zA-Z0-9._%+-]] *)
Definition localClass (c : N) : bool :=
  in_range "a" "z" c || in_range "A" "Z" c || in_range "0" "9" c
  || is_char "." c || is_char "_" c || is_char "%" c || is_char "+" c
  || is_char "-" c.

(** [[a-zA-Z0-9.-]] *)
Definition domainClass (c : N) : bool :=
  in_range "a" "z" c || in_range "A" "Z" c || in_range "0" "9" c
  || is_char "." c || is_char "-" c.

(** [[a-zA-Z]] *)
Definition letterClass (c : N) : bool :=
  in_range "a" "z" c || in_range "A" "Z" c.

(** [/^[a-zA-Z0-9._%+-]+@[a-zA-Z0-9.-]+\.[a-zA-Z]{2,}$/] *)
Definition emailRegex : regex.re :=
  regex.Seq (regex.Plus (regex.Class localClass))
    (regex.Seq (regex.Char "@")
       (regex.Seq (regex.Plus (regex.Class domainClass))
          (regex.Seq (regex.Char ".")
             (regex.AtLeast2 (regex.Class letterClass))))).

Definition isValidEmail (email : jsstring) : bool :=
  regex.matches emailRegex email.

Definition isValidPassword (password : jsstring) : bool :=
  passwordValidation.isPasswordValid password.

End authChecks.

(** ** [src/pages/LoginPage.tsx] and [src/pages/RegisterPage.tsx]: the submit handlers *)

Module forms.

(** Text that the JavaScript engine supplies: the string form of a value
    that is not a string ([None] is [undefined]), and the message of an
    exception the engine itself throws. *)
Record Platform : Type := {
  ToString : option JsValue -> jsstring;
  nativeMessage : exn -> jsstring
}.

(** The string that [localStorage.setItem] stores for [v]. *)
Definition stringOf (P : Platform) (v : option JsValue) : jsstring :=
  match v with
  | Some (JStr s) => s
  | _ => ToString P v
  end.

(** [err.message] *)
Definition messageOf (P : Platform) (err : exn) : jsstring :=
  match err with
  | Error (JStr s) => s
  | Error v => ToString P (Some v)
  | _ => nativeMessage P err
  end.

(** The application as a page handler sees it: the session, the answers the
    backend will give, and the requests sent so far. *)
Record Client : Type := {
  session : AuthContext.App;
  answers : list axiosInstance.Answer;
  requests : list axiosInstance.RequestConfig
}.

Definition toWorld (c : Client) : axiosInstance.World :=
  {| axiosInstance.browser := AuthContext.browser (session c);
     axiosInstance.backend := answers c;
     axiosInstance.sent := requests c |}.

(** The client after a service call: the world the call left, with the
    session flag it had. *)
Definition fromWorld (c : Client) (w : axiosInstance.World) : Client :=
  {| session := {| AuthContext.browser := axiosInstance.browser w;
                   AuthContext.isAuthenticated :=
                     AuthContext.isAuthenticated (session c) |};
     answers := axiosInstance.backend w;
     requests := axiosInstance.sent w |}.

Definition onSession (f : AuthContext.App -> AuthContext.App) (c : Client) : Client :=
  {| session := f (session c); answers := answers c; requests := requests c |}.

(** [setAuthToken(response.token); navigate('/instances')] *)
Definition signIn (P : Platform) (token : option JsValue) (c : Client) : Client :=
  onSession (fun app =>
    AuthContext.navigate (lit "/instances")
      (AuthContext.login (stringOf P token) app)) c.

End forms.

Module LoginPage.
Import forms.

Record Form : Type := {
  email : jsstring;
  password : jsstring;
  loading : bool;
  error : option jsstring
}.

Definition setLoading (v : bool) (f : Form) : Form :=
  {| email := email f; password := password f; loading := v; error := error f |}.
Definition setError (v : option jsstring) (f : Form) : Form :=
  {| email := email f; password := password f; loading := loading f; error := v |}.

Definition handleSubmit (P : Platform) (form : Form) (c : Client) : Form * Client :=
  let form := setError None form in
  if AuthContext.isAuthenticated (session c) then
    (form, onSession (AuthContext.navigate (lit "/instances")) c)
  else if negb (authChecks.isValidEmail (email form))
          || negb (authChecks.isValidPassword (password form)) then
    (setError (Some (lit "Please enter valid email and password")) form, c)
  else
    let form := setLoading true form in
    let '(w, response) :=
      services.authService.login (email form) (password form) (toWorld c) in
    let c := fromWorld c w in
    match (let* response := response in services.field "token" response) with
    | Normal token => (setLoading false form, signIn P token c)
    | Throw err =>
        (setLoading false (setError (Some (messageOf P err)) form), c)
    end.

End LoginPage.

Module RegisterPage.
Import forms.

Record Form : Type := {
  email : jsstring;
  password : jsstring;
  confirmPassword : jsstring;
  loading : bool;
  error : option jsstring;
  success : bool
}.

Definition setLoading (v : bool) (f : Form) : Form :=
  {| email := email f; password := password f;
     confirmPassword := confirmPassword f; loading := v; error := error f;
     success := success f |}.
Definition setError (v : option jsstring) (f : Form) : Form :=
  {| email := email f; password := password f;
     confirmPassword := confirmPassword f; loading := loading f; error := v;
     success := success f |}.
Definition setSuccess (v : bool) (f : Form) : Form :=
  {| email := email f; password := password f;
     confirmPassword := confirmPassword f; loading := loading f;
     error := error f; success := v |}.

(** [!s] for a string. *)
Definition blank (s : jsstring) : bool :=
  match s with
  | [] => true
  | _ :: _ => false
  end.

(** The [catch] and [finally] blocks. *)
Definition failed (P : Platform) (err : exn) (form : Form) : Form :=
  setLoading false (setSuccess false (setError (Some (messageOf P err)) form)).

Definition handleSubmit (P : Platform) (form : Form) (c : Client) : Form * Client :=
  let form := setError None form in
  if blank (email form) || blank (password form) || blank (confirmPassword form) then
    (setError (Some (lit "Please fill in all fields")) form, c)
  else if negb (authChecks.isValidEmail (email form)) then
    (setError (Some (lit "Please enter a valid email address")) form, c)
  else if negb (authChecks.isValidPassword (password form)) then
    (setError (Some (lit "Password must be at least 8 characters and include uppercase, lowercase, a number, and a special character")) form, c)
  else if negb (jsstring_eqb (password form) (confirmPassword form)) then
    (setError (Some (lit "Passwords do not match")) form, c)
  else
    let form := setLoading true form in
    let '(w1, registered) :=
      services.authService.register (email form) (password form) (toWorld c) in
    match registered with
    | Throw err => (failed P err form, fromWorld c w1)
    | Normal _ =>
        let form := setSuccess true form in
        let '(w2, loginResponse) :=
          services.authService.login (email form) (password form) w1 in
        let c := fromWorld c w2 in
        match (let* response := loginResponse in
               services.field "token" response) with
        | Normal token => (setLoading false form, signIn P token c)
        | Throw err => (failed P err form, c)
        end
    end.

End RegisterPage.

(** ** [src/pages/InstanceMetricsPage.tsx]: the polling effect *)

Module polling.
Import InstanceMetricsPage.

(** The metrics screen and the timers of its window.  A live interval is
    recorded with its id and the instance id that its callback fetches (the
    [fetchData] of the render that created it).  [started] logs the calls of
    [fetchData] that got past its guard: the instance id and the
    [isBackgroundRefresh] flag, oldest first. *)
Record Screen : Type := {
  instanceId : option jsstring;
  page : PageState;
  pollingIntervalRef : option positive;
  intervals : list (positive * option jsstring);
  nextId : positive;
  hasCleanup : bool;
  started : list (option jsstring * bool)
}.

(** [!instanceId] *)
Definition missing (id : option jsstring) : bool :=
  match id with
  | Some (_ :: _) => false
  | _ => true
  end.

(** The synchronous part of a call [fetchData(isBackgroundRefresh)] of the
    callback that captured [id]. *)
Definition startFetch (id : option jsstring) (isBackgroundRefresh : bool)
    (s : Screen) : Screen :=
  if missing id then s
  else
    {| instanceId := instanceId s;
       page := fetchData_begin isBackgroundRefresh (page s);
       pollingIntervalRef := pollingIntervalRef s;
       intervals := intervals s;
       nextId := nextId s;
       hasCleanup := hasCleanup s;
       started := started s ++ [(id, isBackgroundRefresh)] |}.

(** The body of the effect. *)
Definition effect (s : Screen) : Screen :=
  if missing (instanceId s) then
    {| instanceId := instanceId s;
       page := setLoading false (setError (Some (lit "Instance ID is missing")) (page s));
       pollingIntervalRef := pollingIntervalRef s;
       intervals := intervals s;
       nextId := nextId s;
       hasCleanup := false;
       started := started s |}
  else
    let s := startFetch (instanceId s) false s in
    {| instanceId := instanceId s;
       page := page s;
       pollingIntervalRef := Some (nextId s);
       intervals := intervals s ++ [(nextId s, instanceId s)];
       nextId := Pos.succ (nextId s);
       hasCleanup := true;
       started := started s |}.

(** The cleanup the effect returns:
    [if (ref.current) { clearInterval(ref.current); ref.current = null }]. *)
Definition cleanup (s : Screen) : Screen :=
  match pollingIntervalRef s with
  | Some n =>
      {| instanceId := instanceId s;
         page := page s;
         pollingIntervalRef := None;
         intervals := List.filter (fun t => negb (Pos.eqb (fst t) n)) (intervals s);
         nextId := nextId s;
         hasCleanup := hasCleanup s;
         started := started s |}
  | None => s
  end.

Definition runCleanup (s : Screen) : Screen :=
  if hasCleanup s then cleanup s else s.

Definition initialPage : PageState :=
  {| metrics := JArr []; decisions := JArr []; loading := true; error := None |}.

(** The screen is shown for the route parameter [id]; [first] is the id the
    window gives to its next timer. *)
Definition mount (first : positive) (id : option jsstring) : Screen :=
  effect {| instanceId := id; page := initialPage; pollingIntervalRef := None;
            intervals := []; nextId := first; hasCleanup := false;
            started := [] |}.

(** The route parameter becomes [id]: when it differs, the cleanup of the
    last effect runs, then the effect. *)
Definition routeChange (id : option jsstring) (s : Screen) : Screen :=
  if bool_decide (id = instanceId s) then s
  else
    let s := runCleanup s in
    effect {| instanceId := id; page := page s;
              pollingIntervalRef := pollingIntervalRef s;
              intervals := intervals s; nextId := nextId s;
              hasCleanup := hasCleanup s; started := started s |}.

(** The screen is torn down. *)
Definition unmount (s : Screen) : Screen := runCleanup s.

(** Interval [n] fires, if it is live. *)
Definition tick (n : positive) (s : Screen) : Screen :=
  match List.find (fun t => Pos.eqb (fst t) n) (intervals s) with
  | Some (_, id) => startFetch id true s
  | None => s
  end.

Inductive Event : Type :=
| RouteChange (id : option jsstring)
| Tick (n : positive).

Definition step (s : Screen) (e : Event) : Screen :=
  match e with
  | RouteChange id => routeChange id s
  | Tick n => tick n s
  end.

Definition run (events : list Event) (s : Screen) : Screen :=
  fold_left step events s.

End polling.

(** ** [src/pages/InstancesListPage.tsx]: the list update after start / stop *)

Module InstancesListPage.

Record Instance : Type := {
  id : jsstring;
  instance_id : jsstring;
  instance_type : jsstring;
  region : jsstring;
  is_monitoring : bool;
  created_at : jsstring
}.

(** [{ ...inst, is_monitoring: value }] *)
Definition withMonitoring (value : bool) (inst : Instance) : Instance :=
  {| id := id inst; instance_id := instance_id inst;
     instance_type := instance_type inst; region := region inst;
     is_monitoring := value; created_at := created_at inst |}.

(** The updater passed to [setInstances] by [handleStartMonitoring]
    ([value] true) and [handleStopMonitoring] ([value] false):
    [prev.map(inst => inst.instance_id === target ? {...inst, is_monitoring: value} : inst)]. *)
Definition markMonitoring (target : jsstring) (value : bool)
    (prev : list Instance) : list Instance :=
  map (fun inst =>
         if jsstring_eqb (instance_id inst) target then withMonitoring value inst
         else inst) prev.

End InstancesListPage.

(** ** Page handlers that end the session *)

Module pages.

(** [handleLogout] of the instances list and of the metrics page:
    [logout(); navigate('/login')]. *)
Definition handleLogout (app : AuthContext.App) : AuthContext.App :=
  AuthContext.navigate (lit "/login") (AuthContext.logout app).

End pages.

(** ** Vocabulary of the specification *)

(** A segment "decodes (base64url) to JSON": the JSON value it decodes to. *)
Definition base64url_json (segment : jsstring) : option JsValue :=
  let base64 := replace_all "_" "/" (replace_all "-" "+" segment) in
  match atob (padEnd (ceil4 (length base64)) "=" base64) with
  | Normal json =>
      match JSON_parse json with
      | Normal v => Some v
      | Throw _ => None
      end
  | Throw _ => None
  end.

(** The separator of the token segments, and strings free of it. *)
Definition dot : N := cu ".".

Definition no_dot (s : jsstring) : bool :=
  forallb (fun c => negb (N.eqb c dot)) s.

(** The character classes of the password rules. *)
Definition is_upper (c : N) : bool := in_range "A" "Z" c.
Definition is_lower (c : N) : bool := in_range "a" "z" c.
Definition is_special (c : N) : bool :=
  negb (in_range "A" "Z" c || in_range "a" "z" c || in_range "0" "9" c).

(** The requests of the two authentication calls, as the services build
    them. *)
Definition loginRequest (email password : jsstring) : axiosInstance.RequestConfig :=
  axiosInstance.mkConfig (lit "post") (lit "/api/auth/login") []
    (Some (services.credentials email password)).

Definition registerRequest (email password : jsstring) : axiosInstance.RequestConfig :=
  axiosInstance.mkConfig (lit "post") (lit "/api/auth/register") []
    (Some (services.credentials email password)).

(** The "numeric exp claim" of a payload, if it has one. *)
Definition numeric_exp (payload : JsValue) : option spec_float :=
  match payload with
  | JObj members =>
      match get_member (lit "exp") members with
      | Some (JNum exp) => Some exp
      | _ => None
      end
  | _ => None
  end.

(** ** Sample data for the examples *)

(** An expired token: its payload is the JSON text of an object whose
    only member is [exp], with value 1. *)
Definition expiredToken : jsstring := lit "h.eyJleHAiOjF9.s".

Definition emptyBrowser (path : jsstring) : axiosInstance.Browser :=
  {| axiosInstance.localStorage := ∅;
     axiosInstance.pathname := path;
     axiosInstance.hrefAssigned := [] |}.

Definition browserWith (token : jsstring) (path : jsstring) : axiosInstance.Browser :=
  {| axiosInstance.localStorage := storage.setToken token ∅;
     axiosInstance.pathname := path;
     axiosInstance.hrefAssigned := [] |}.

Definition unauthorized : axiosInstance.AxiosError :=
  {| axiosInstance.response :=
       Some {| axiosInstance.status := 401;
               axiosInstance.response_data := None |} |}.

Definition listInstances : axiosInstance.RequestConfig :=
  axiosInstance.mkConfig (lit "get") (lit "/api/instances/") [] None.

(** A backend that answers the next request with status 500 and the body
    [{ error: message }]. *)
Definition failingWith (message : JsValue) : axiosInstance.World :=
  {| axiosInstance.browser := emptyBrowser (lit "/instances");
     axiosInstance.backend :=
       [axiosInstance.Responds
          {| axiosInstance.status := 500;
             axiosInstance.response_data :=
               Some (JObj [(lit "error", message)]) |}];
     axiosInstance.sent := [] |}.

Definition staleError : InstanceMetricsPage.PageState :=
  {| InstanceMetricsPage.metrics := JArr [];
     InstanceMetricsPage.decisions := JArr [];
     InstanceMetricsPage.loading := false;
     InstanceMetricsPage.error := Some (lit "Failed to fetch metrics.") |}.

(** A response with status 200 and the given body. *)
Definition okWith (body : JsValue) : axiosInstance.Answer :=
  axiosInstance.Responds
    {| axiosInstance.status := 200; axiosInstance.response_data := Some body |}.

(** A platform for the examples: it is asked for no text in them. *)
Definition somePlatform : forms.Platform :=
  {| forms.ToString := fun _ => []; forms.nativeMessage := fun _ => [] |}.

Definition visitor (path : jsstring) (answers : list axiosInstance.Answer) : forms.Client :=
  {| forms.session := {| AuthContext.browser := emptyBrowser path;
                         AuthContext.isAuthenticated := false |};
     forms.answers := answers;
     forms.requests := [] |}.

(** A registration form that passes the four checks of its handler. *)
Definition registrationValid (form : RegisterPage.Form) : bool :=
  negb (RegisterPage.blank (RegisterPage.email form)
        || RegisterPage.blank (RegisterPage.password form)
        || RegisterPage.blank (RegisterPage.confirmPassword form))
  && authChecks.isValidEmail (RegisterPage.email form)
  && authChecks.isValidPassword (RegisterPage.password form)
  && jsstring_eqb (RegisterPage.password form) (RegisterPage.confirmPassword form).

Definition newUser : RegisterPage.Form :=
  {| RegisterPage.email := lit "user@example.com";
     RegisterPage.password := lit "Abcdef1!";
     RegisterPage.confirmPassword := lit "Abcdef1!";
     RegisterPage.loading := false;
     RegisterPage.error := None;
     RegisterPage.success := false |}.

(** What holds of the screen between events: the only live interval is the
    one the ref points to, it fetches the current instance, and the effect
    left a cleanup exactly when it started one. *)
Definition tidy (s : polling.Screen) : Prop :=
  match polling.pollingIntervalRef s with
  | Some n => polling.intervals s = [(n, polling.instanceId s)] /\ polling.hasCleanup s = true
              /\ polling.missing (polling.instanceId s) = false
  | None => polling.intervals s = [] /\ polling.hasCleanup s = false
            /\ polling.missing (polling.instanceId s) = true
  end.

(** * Properties *)

(** ** Worked examples *)

Example split_three : split "." (lit "a.b.c") = [lit "a"; lit "b"; lit "c"].
Proof. reflexivity. Qed.

Example split_empty_segment : split "." (lit "a..c") = [lit "a"; []; lit "c"].
Proof. reflexivity. Qed.

Example split_no_separator : split "." [] = [[]].
Proof. reflexivity. Qed.

(** The payload of [expiredToken]: brace, quote, [exp], quote, colon, 1, brace. *)
Example atob_payload :
  atob (lit "eyJleHAiOjF9") = Normal [123; 34; 101; 120; 112; 34; 58; 49; 125]%N.
Proof. vm_compute. reflexivity. Qed.

Example atob_padded : atob (lit "e30=") = Normal (lit "{}").
Proof. vm_compute. reflexivity. Qed.

Example atob_bad_length : atob (lit "e") = Throw InvalidCharacterError.
Proof. vm_compute. reflexivity. Qed.

Example atob_bad_character : atob (lit "e-_0") = Throw InvalidCharacterError.
Proof. vm_compute. reflexivity. Qed.

Example JSON_parse_number_tenth :
  JSON_parse (lit "0.1") = Normal (JNum (S754_finite false 7205759403792794 (-56))).
Proof. vm_compute. reflexivity. Qed.

Example JSON_parse_number_rounds_to_even :
  JSON_parse (lit "9007199254740993") =
    Normal (JNum (S754_finite false 4503599627370496 1)).
Proof. vm_compute. reflexivity. Qed.

Example JSON_parse_number_overflow :
  JSON_parse (lit "1e400") = Normal (JNum (S754_infinity false)).
Proof. vm_compute. reflexivity. Qed.

Example JSON_parse_nested :
  JSON_parse (lit " [1, [true, null], {}, -0 ] ") =
    Normal (JArr [JNum (S754_finite false 4503599627370496 (-52));
                  JArr [JBool true; JNull]; JObj []; JNum (S754_zero true)]).
Proof. vm_compute. reflexivity. Qed.

Example JSON_parse_trailing_comma : JSON_parse (lit "[1,]") = Throw SyntaxError.
Proof. vm_compute. reflexivity. Qed.

Example JSON_parse_leading_zero : JSON_parse (lit "01") = Throw SyntaxError.
Proof. vm_compute. reflexivity. Qed.

Example JSON_parse_empty : JSON_parse [] = Throw SyntaxError.
Proof. vm_compute. reflexivity. Qed.

Example payload_of_expiredToken :
  base64url_json (lit "eyJleHAiOjF9") =
    Some (JObj [(lit "exp", JNum (S754_finite false 4503599627370496 (-52)))]).
Proof. vm_compute. reflexivity. Qed.

(** A later duplicate key overrides an earlier one: [exp] is 1, then
    4102444800. *)
Example payload_duplicate_exp :
  option_map numeric_exp
    (base64url_json (lit "eyJleHAiOjEsImV4cCI6NDEwMjQ0NDgwMH0")) =
    Some (Some (number_of_Z 4102444800)).
Proof. vm_compute. reflexivity. Qed.

Example nowSeconds_floor :
  storage.nowSeconds 1700000000999 = number_of_Z 1700000000 /\
  storage.nowSeconds 999 = number_of_Z 0 /\
  storage.nowSeconds 1000 = number_of_Z 1.
Proof. repeat split; vm_compute; reflexivity. Qed.

(** [exp] is 1: valid before second 1 only, and not at second 1 itself. *)
Example isTokenValid_exp_strict :
  storage.isTokenValid 999 expiredToken = Normal true /\
  storage.isTokenValid 1000 expiredToken = Normal false /\
  storage.isTokenValid 2000000 expiredToken = Normal false.
Proof. repeat split; vm_compute; reflexivity. Qed.

(** Payloads [{}], [true] and one with a string [exp] are valid;
    payloads [false], [0] and the empty string are not. *)
Example isTokenValid_without_exp :
  storage.isTokenValid 1700000000999 (lit "h.e30.s") = Normal true /\
  storage.isTokenValid 1700000000999 (lit "h.dHJ1ZQ.s") = Normal true /\
  storage.isTokenValid 1700000000999 (lit "h.eyJleHAiOiJzb29uIn0.s") = Normal true /\
  storage.isTokenValid 1700000000999 (lit "h.ZmFsc2U.s") = Normal false /\
  storage.isTokenValid 1700000000999 (lit "h.MA.s") = Normal false /\
  storage.isTokenValid 1700000000999 (lit "h.IiI.s") = Normal false.
Proof. repeat split; vm_compute; reflexivity. Qed.

Example isTokenValid_malformed :
  storage.isTokenValid 0 [] = Normal false /\
  storage.isTokenValid 0 (lit "e30") = Normal false /\
  storage.isTokenValid 0 (lit "h.e30") = Normal false /\
  storage.isTokenValid 0 (lit "h.e30.s.x") = Normal false /\
  storage.isTokenValid 0 (lit "h..s") = Normal false /\
  storage.isTokenValid 0 (lit "h.e.s") = Normal false /\
  storage.isTokenValid 0 (lit "h.e30e.s") = Normal false.
Proof. repeat split; vm_compute; reflexivity. Qed.

(** ** The parser consumes its input and has fuel enough *)

Lemma skip_ws_length s : (length (skip_ws s) <= length s)%nat.
Proof.
  induction s as [|c s IH]; simpl; [lia|].
  destruct (_ || _); simpl; lia.
Qed.

Lemma strip_prefix_length p : forall s r,
  strip_prefix p s = Some r -> (length r <= length s)%nat.
Proof.
  induction p as [|a p IH]; intros s r H; simpl in H.
  - injection H as <-. lia.
  - destruct s as [|b s]; [discriminate|].
    destruct (N.eqb a b); [|discriminate].
    apply IH in H. simpl. lia.
Qed.

Lemma take_digits_length s : (length (snd (take_digits s)) <= length s)%nat.
Proof.
  induction s as [|c s IH]; simpl; [lia|].
  destruct (is_digit c); simpl; [|lia].
  destruct (take_digits s) as [ds r]. simpl in *. lia.
Qed.

Lemma parse_int_length s ds r :
  parse_int s = Some (ds, r) -> (length r < length s)%nat.
Proof.
  destruct s as [|c s]; simpl; [discriminate|].
  destruct (is_char "0" c).
  - intros [= <- <-]. simpl. lia.
  - destruct (is_digit c) eqn:Hd; [|discriminate].
    pose proof (take_digits_length s) as Hl.
    destruct (take_digits s) as [ds' r']. intros [= <- <-]. simpl in Hl. lia.
Qed.

Lemma digits1_length s ds r :
  digits1 s = Some (ds, r) -> (length r <= length s)%nat.
Proof.
  unfold digits1. pose proof (take_digits_length s) as Hl.
  destruct (take_digits s) as [[|d ds'] r']; [discriminate|].
  intros [= <- <-]. simpl in Hl. lia.
Qed.

Lemma take_sign_length s : (length (snd (take_sign s)) <= length s)%nat.
Proof.
  destruct s as [|sg r]; simpl; [lia|].
  destruct (is_char "-" sg); [simpl; lia|].
  destruct (is_char "+" sg); simpl; lia.
Qed.

Lemma parse_frac_length s ds r :
  parse_frac s = Some (ds, r) -> (length r <= length s)%nat.
Proof.
  destruct s as [|c s]; simpl.
  - intros [= <- <-]. simpl. lia.
  - destruct (is_char "." c).
    + intros H. apply digits1_length in H. lia.
    + intros [= <- <-]. simpl. lia.
Qed.

Lemma parse_exp_length s e r :
  parse_exp s = Some (e, r) -> (length r <= length s)%nat.
Proof.
  destruct s as [|c s]; simpl.
  - intros [= <- <-]. simpl. lia.
  - destruct (_ || _).
    + pose proof (take_sign_length s) as Hs.
      destruct (take_sign s) as [neg rest']. simpl in Hs.
      destruct (digits1 rest') as [[ds r']|] eqn:Hd; [|discriminate].
      intros [= <- <-]. apply digits1_length in Hd. lia.
    + intros [= <- <-]. simpl. lia.
Qed.

Lemma parse_number_length s x r :
  parse_number s = Some (x, r) -> (length r < length s)%nat.
Proof.
  unfold parse_number.
  assert (Hgen : forall neg s1,
    match parse_int s1 with
    | None => None
    | Some (ip, s2) =>
        match parse_frac s2 with
        | None => None
        | Some (fp, s3) =>
            match parse_exp s3 with
            | None => None
            | Some (e, s4) =>
                Some (number_of_decimal neg (digits_value (ip ++ fp))
                        (e - Z.of_nat (length fp)), s4)
            end
        end
    end = Some (x, r) -> (length r < length s1)%nat).
  { intros neg s1.
    destruct (parse_int s1) as [[ip s2]|] eqn:Hi; [|discriminate].
    destruct (parse_frac s2) as [[fp s3]|] eqn:Hf; [|discriminate].
    destruct (parse_exp s3) as [[e s4]|] eqn:He; [|discriminate].
    intros [= <- <-].
    apply parse_int_length in Hi. apply parse_frac_length in Hf.
    apply parse_exp_length in He. lia. }
  destruct s as [|c s]; [intros H; apply Hgen in H; simpl in H; lia|].
  destruct (is_char "-" c); intros H; apply Hgen in H; simpl in *; lia.
Qed.

Lemma parse_string_body_length s : forall acc str r,
  parse_string_body acc s = Some (str, r) -> (length r < length s)%nat.
Proof.
  induction s as [s IH] using (well_founded_induction
    (well_founded_ltof _ (@length N))). unfold ltof in IH.
  intros acc str r. destruct s as [|c rest]; simpl; [discriminate|].
  destruct (N.eqb c quote); [intros [= <- <-]; simpl; lia|].
  destruct (N.eqb c backslash).
  - destruct rest as [|e rest1]; [discriminate|].
    assert (Hrec : forall acc', parse_string_body acc' rest1 = Some (str, r) ->
                     (length r < S (S (length rest1)))%nat).
    { intros acc' H. apply IH in H; simpl; lia. }
    destruct (_ || _); [apply Hrec|].
    repeat (match goal with
            | |- (if ?b then _ else _) = _ -> _ => destruct b; [apply Hrec|]
            end).
    destruct (is_char "u" e); [|discriminate].
    destruct rest1 as [|h1 [|h2 [|h3 [|h4 rest2]]]]; try discriminate.
    destruct (hex4 h1 h2 h3 h4); [|discriminate].
    intros H. apply IH in H; simpl in *; lia.
  - destruct (N.ltb c 32); [discriminate|].
    intros H. apply IH in H; simpl in *; lia.
Qed.

#[local] Arguments skip_ws : simpl never.
#[local] Arguments strip_prefix : simpl never.
#[local] Arguments parse_number : simpl never.
#[local] Arguments parse_string_body : simpl never.
#[local] Arguments lit : simpl never.
#[local] Arguments is_char : simpl never.

(** A successful parse leaves strictly less input, whatever the fuel. *)
Lemma parse_consumes fuel :
  (forall s v r, parse_value fuel s = Normal (v, r) ->
     (length r < length s)%nat) /\
  (forall acc s v r, parse_elements fuel acc s = Normal (v, r) ->
     (length r < length s)%nat) /\
  (forall acc s v r, parse_members fuel acc s = Normal (v, r) ->
     (length r < length s)%nat).
Proof.
  induction fuel as [|fuel (IHv & IHe & IHm)];
    [repeat split; intros; discriminate|].
  repeat split.
  - intros s v r. simpl.
    pose proof (skip_ws_length s) as Hs.
    destruct (skip_ws s) as [|c rest]; [discriminate|]. simpl in Hs.
    pose proof (skip_ws_length rest) as Hr.
    destruct (is_char "{" c).
    { destruct (skip_ws rest) as [|c' rest']; [discriminate|]. simpl in Hr.
      destruct (is_char "}" c'); [intros [= <- <-]; lia|].
      intros H. apply IHm in H. lia. }
    destruct (is_char "[" c).
    { destruct (skip_ws rest) as [|c' rest']; [discriminate|]. simpl in Hr.
      destruct (is_char "]" c'); [intros [= <- <-]; lia|].
      intros H. apply IHe in H. lia. }
    destruct (N.eqb c quote).
    { destruct (parse_string_body [] rest) as [[str r']|] eqn:Hb; [|discriminate].
      intros [= <- <-]. apply parse_string_body_length in Hb. lia. }
    destruct (is_char "t" c).
    { destruct (strip_prefix _ rest) as [r'|] eqn:Hp; [|discriminate].
      intros [= <- <-]. apply strip_prefix_length in Hp. lia. }
    destruct (is_char "f" c).
    { destruct (strip_prefix _ rest) as [r'|] eqn:Hp; [|discriminate].
      intros [= <- <-]. apply strip_prefix_length in Hp. lia. }
    destruct (is_char "n" c).
    { destruct (strip_prefix _ rest) as [r'|] eqn:Hp; [|discriminate].
      intros [= <- <-]. apply strip_prefix_length in Hp. lia. }
    destruct (parse_number (c :: rest)) as [[x r']|] eqn:Hn; [|discriminate].
    intros [= <- <-]. apply parse_number_length in Hn. simpl in Hn. lia.
  - intros acc s v r. simpl.
    destruct (parse_value fuel s) as [[v1 r1]|] eqn:Hv; [|discriminate].
    apply IHv in Hv. pose proof (skip_ws_length r1) as Hr.
    destruct (skip_ws r1) as [|c rest]; [discriminate|]. simpl in Hr.
    destruct (is_char "," c); [intros H; apply IHe in H; lia|].
    destruct (is_char "]" c); [|discriminate].
    intros [= <- <-]. lia.
  - intros acc s v r. simpl.
    pose proof (skip_ws_length s) as Hs.
    destruct (skip_ws s) as [|q s1]; [discriminate|]. simpl in Hs.
    destruct (N.eqb q quote); [|discriminate].
    destruct (parse_string_body [] s1) as [[key s2]|] eqn:Hb; [|discriminate].
    apply parse_string_body_length in Hb.
    pose proof (skip_ws_length s2) as Hs2.
    destruct (skip_ws s2) as [|colon s3]; [discriminate|]. simpl in Hs2.
    destruct (is_char ":" colon); [|discriminate].
    destruct (parse_value fuel s3) as [[v1 r1]|] eqn:Hv; [|discriminate].
    apply IHv in Hv. pose proof (skip_ws_length r1) as Hr.
    destruct (skip_ws r1) as [|c rest]; [discriminate|]. simpl in Hr.
    destruct (is_char "," c); [intros H; apply IHm in H; lia|].
    destruct (is_char "}" c); [|discriminate].
    intros [= <- <-]. lia.
Qed.

(** With fuel for twice the length of the input the parser never runs out. *)
Lemma parse_fuel_enough fuel :
  (forall s, (2 * length s + 1 <= fuel)%nat ->
     parse_value fuel s <> Throw RangeError) /\
  (forall acc s, (2 * length s + 2 <= fuel)%nat ->
     parse_elements fuel acc s <> Throw RangeError) /\
  (forall acc s, (2 * length s + 2 <= fuel)%nat ->
     parse_members fuel acc s <> Throw RangeError).
Proof.
  induction fuel as [|fuel (IHv & IHe & IHm)];
    [repeat split; intros; lia|].
  destruct (parse_consumes fuel) as (Cv & _ & _).
  repeat split.
  - intros s Hf. simpl.
    pose proof (skip_ws_length s) as Hs.
    destruct (skip_ws s) as [|c rest]; [discriminate|]. simpl in Hs.
    pose proof (skip_ws_length rest) as Hr.
    destruct (is_char "{" c).
    { destruct (skip_ws rest) as [|c' rest']; [discriminate|].
      destruct (is_char "}" c'); [discriminate|]. apply IHm. lia. }
    destruct (is_char "[" c).
    { destruct (skip_ws rest) as [|c' rest']; [discriminate|].
      destruct (is_char "]" c'); [discriminate|]. apply IHe. lia. }
    destruct (N.eqb c quote);
      [destruct (parse_string_body [] rest) as [[? ?]|]; discriminate|].
    destruct (is_char "t" c); [destruct (strip_prefix _ rest); discriminate|].
    destruct (is_char "f" c); [destruct (strip_prefix _ rest); discriminate|].
    destruct (is_char "n" c); [destruct (strip_prefix _ rest); discriminate|].
    destruct (parse_number (c :: rest)) as [[? ?]|]; discriminate.
  - intros acc s Hf. simpl.
    destruct (parse_value fuel s) as [[v1 r1]|e] eqn:Hv.
    + apply Cv in Hv. pose proof (skip_ws_length r1) as Hr.
      destruct (skip_ws r1) as [|c rest]; [discriminate|]. simpl in Hr.
      destruct (is_char "," c); [apply IHe; lia|].
      destruct (is_char "]" c); discriminate.
    + intros [= ->]. revert Hv. apply IHv. lia.
  - intros acc s Hf. simpl.
    pose proof (skip_ws_length s) as Hs.
    destruct (skip_ws s) as [|q s1]; [discriminate|]. simpl in Hs.
    destruct (N.eqb q quote); [|discriminate].
    destruct (parse_string_body [] s1) as [[key s2]|] eqn:Hb; [|discriminate].
    apply parse_string_body_length in Hb.
    pose proof (skip_ws_length s2) as Hs2.
    destruct (skip_ws s2) as [|colon s3]; [discriminate|]. simpl in Hs2.
    destruct (is_char ":" colon); [|discriminate].
    destruct (parse_value fuel s3) as [[v1 r1]|e] eqn:Hv.
    + apply Cv in Hv. pose proof (skip_ws_length r1) as Hr.
      destruct (skip_ws r1) as [|c rest]; [discriminate|]. simpl in Hr.
      destruct (is_char "," c); [apply IHm; lia|].
      destruct (is_char "}" c); discriminate.
    + intros [= ->]. revert Hv. apply IHv. lia.
Qed.

(** [JSON.parse] either returns a value or throws [SyntaxError]. *)
Lemma parse_throws_syntax fuel :
  (forall s e, parse_value fuel s = Throw e ->
     e = SyntaxError \/ e = RangeError) /\
  (forall acc s e, parse_elements fuel acc s = Throw e ->
     e = SyntaxError \/ e = RangeError) /\
  (forall acc s e, parse_members fuel acc s = Throw e ->
     e = SyntaxError \/ e = RangeError).
Proof.
  induction fuel as [|fuel (IHv & IHe & IHm)];
    [repeat split; intros; simpl in *; right; congruence|].
  repeat split.
  - intros s e. simpl.
    destruct (skip_ws s) as [|c rest]; [intros [= <-]; auto|].
    destruct (is_char "{" c).
    { destruct (skip_ws rest) as [|c' rest']; [intros [= <-]; auto|].
      destruct (is_char "}" c'); [discriminate|]. apply IHm. }
    destruct (is_char "[" c).
    { destruct (skip_ws rest) as [|c' rest']; [intros [= <-]; auto|].
      destruct (is_char "]" c'); [discriminate|]. apply IHe. }
    destruct (N.eqb c quote);
      [destruct (parse_string_body [] rest) as [[? ?]|];
       [discriminate|intros [= <-]; auto]|].
    destruct (is_char "t" c);
      [destruct (strip_prefix _ rest); [discriminate|intros [= <-]; auto]|].
    destruct (is_char "f" c);
      [destruct (strip_prefix _ rest); [discriminate|intros [= <-]; auto]|].
    destruct (is_char "n" c);
      [destruct (strip_prefix _ rest); [discriminate|intros [= <-]; auto]|].
    destruct (parse_number (c :: rest)) as [[? ?]|];
      [discriminate|intros [= <-]; auto].
  - intros acc s e. simpl.
    destruct (parse_value fuel s) as [[v1 r1]|e1] eqn:Hv.
    + destruct (skip_ws r1) as [|c rest]; [intros [= <-]; auto|].
      destruct (is_char "," c); [apply IHe|].
      destruct (is_char "]" c); [discriminate|intros [= <-]; auto].
    + intros [= <-]. eapply IHv, Hv.
  - intros acc s e. simpl.
    destruct (skip_ws s) as [|q s1]; [intros [= <-]; auto|].
    destruct (N.eqb q quote); [|intros [= <-]; auto].
    destruct (parse_string_body [] s1) as [[key s2]|]; [|intros [= <-]; auto].
    destruct (skip_ws s2) as [|colon s3]; [intros [= <-]; auto|].
    destruct (is_char ":" colon); [|intros [= <-]; auto].
    destruct (parse_value fuel s3) as [[v1 r1]|e1] eqn:Hv.
    + destruct (skip_ws r1) as [|c rest]; [intros [= <-]; auto|].
      destruct (is_char "," c); [apply IHm|].
      destruct (is_char "}" c); [discriminate|intros [= <-]; auto].
    + intros [= <-]. eapply IHv, Hv.
Qed.

(** [JSON.parse] returns a value or throws [SyntaxError]; it never runs out
    of fuel. *)
Lemma JSON_parse_fuel_enough text :
  (exists v, JSON_parse text = Normal v) \/ JSON_parse text = Throw SyntaxError.
Proof.
  unfold JSON_parse.
  destruct (parse_fuel_enough (2 * length text + 1)) as (Hv & _ & _).
  specialize (Hv text ltac:(lia)).
  destruct (parse_throws_syntax (2 * length text + 1)) as (Tv & _ & _).
  destruct (parse_value _ text) as [[v rest]|e] eqn:Hp.
  - destruct (skip_ws rest); eauto.
  - right. destruct (Tv _ _ Hp) as [->| ->]; [reflexivity|contradiction].
Qed.

(** ** The Token Store validity check *)

Lemma decodeJwtPayload_total token :
  exists payload, storage.decodeJwtPayload token = Normal payload.
Proof.
  unfold storage.decodeJwtPayload.
  destruct (storage.decodeJwtPayload_try token); simpl; eauto.
Qed.

Lemma decodeJwtPayload_segments token a seg c :
  split "." token = [a; seg; c] ->
  storage.decodeJwtPayload token =
    Normal (match base64url_json seg with Some v => v | None => JNull end).
Proof.
  intros Hs. unfold storage.decodeJwtPayload, storage.decodeJwtPayload_try.
  rewrite Hs. unfold base64url_json.
  destruct (atob _) as [json|e]; simpl; [|reflexivity].
  destruct (JSON_parse json); reflexivity.
Qed.

Lemma decodeJwtPayload_malformed token :
  (forall a seg c, split "." token <> [a; seg; c]) ->
  storage.decodeJwtPayload token = Normal JNull.
Proof.
  intros Hs. unfold storage.decodeJwtPayload, storage.decodeJwtPayload_try.
  destruct (split "." token) as [|a [|b [|c [|d l]]]]; try reflexivity.
  exfalso. eapply Hs. reflexivity.
Qed.

Lemma isTokenValid_payload now token payload :
  storage.decodeJwtPayload token = Normal payload ->
  storage.isTokenValid now token =
    Normal (if ToBoolean payload
            then match numeric_exp payload with
                 | Some exp => number_gt exp (storage.nowSeconds now)
                 | None => true
                 end
            else false).
Proof.
  intros Hd. unfold storage.isTokenValid. rewrite Hd. simpl.
  destruct payload as [|b|x|s|items|members]; simpl; try reflexivity.
  - destruct b; reflexivity.
  - destruct x; reflexivity.
  - destruct s; reflexivity.
  - destruct (get_member (lit "exp") members) as [[]|]; reflexivity.
Qed.

(** C1 (as amended): the validity check by cases.  A token that is not three
    dot-separated segments, or whose middle segment does not decode to JSON,
    or decodes to a falsy JSON value ([null], [false], [0], the empty
    string), is invalid; a truthy payload without a numeric [exp] is valid;
    with a numeric [exp] the token is valid exactly when [exp] is greater
    than [Math.floor(Date.now() / 1000)]. *)
Theorem isTokenValid_cases (now : Z) (token : jsstring) :
  ((forall a seg c, split "." token <> [a; seg; c]) ->
     storage.isTokenValid now token = Normal false) /\
  (forall a seg c, split "." token = [a; seg; c] ->
     (base64url_json seg = None ->
        storage.isTokenValid now token = Normal false) /\
     (forall payload, base64url_json seg = Some payload ->
        (ToBoolean payload = false ->
           storage.isTokenValid now token = Normal false) /\
        (ToBoolean payload = true -> numeric_exp payload = None ->
           storage.isTokenValid now token = Normal true) /\
        (forall exp, ToBoolean payload = true -> numeric_exp payload = Some exp ->
           storage.isTokenValid now token =
             Normal (number_gt exp (storage.nowSeconds now))))).
Proof.
  split.
  - intros Hs. rewrite (isTokenValid_payload now token JNull); [reflexivity|].
    apply decodeJwtPayload_malformed, Hs.
  - intros a seg c Hs. pose proof (decodeJwtPayload_segments _ _ _ _ Hs) as Hd.
    split.
    + intros Hn. rewrite Hn in Hd.
      rewrite (isTokenValid_payload now token JNull Hd). reflexivity.
    + intros payload Hp. rewrite Hp in Hd.
      rewrite (isTokenValid_payload now token payload Hd).
      repeat split.
      * intros ->. reflexivity.
      * intros -> ->. reflexivity.
      * intros exp -> ->. reflexivity.
Qed.

(** C1 (as stated) fails: the middle segment of [h.bnVsbA.s] decodes to the
    JSON value [null], which has no numeric [exp], yet the token is invalid. *)
Lemma isTokenValid_null_payload :
  split "." (lit "h.bnVsbA.s") = [lit "h"; lit "bnVsbA"; lit "s"] /\
  base64url_json (lit "bnVsbA") = Some JNull /\
  numeric_exp JNull = None /\
  storage.isTokenValid 0 (lit "h.bnVsbA.s") = Normal false.
Proof. repeat split; vm_compute; reflexivity. Qed.

(** C10: the validity check returns a boolean for every string and every
    clock reading; whatever the [try] block throws, the result is [false]. *)
Theorem isTokenValid_total (now : Z) (token : jsstring) :
  (exists b, storage.isTokenValid now token = Normal b) /\
  (forall e, storage.decodeJwtPayload_try token = Throw e ->
     storage.isTokenValid now token = Normal false).
Proof.
  split.
  - destruct (decodeJwtPayload_total token) as [payload Hd].
    rewrite (isTokenValid_payload now token payload Hd). eauto.
  - intros e He. rewrite (isTokenValid_payload now token JNull); [reflexivity|].
    unfold storage.decodeJwtPayload. rewrite He. reflexivity.
Qed.

(** ** Session state *)

Section Session.
Import axiosInstance AuthContext.

Lemma isAuthenticated_total now ls :
  exists b, storage.isAuthenticated now ls = Normal b.
Proof.
  unfold storage.isAuthenticated.
  destruct (storage.getToken ls) as [[|c t]|]; eauto.
  destruct (decodeJwtPayload_total (c :: t)) as [payload Hd].
  rewrite (isTokenValid_payload now (c :: t) payload Hd). eauto.
Qed.

Lemma mount_total now b :
  mount now b =
    Normal {| browser := b;
              isAuthenticated := mountEffect (localStorage b) false |}.
Proof.
  unfold mount, initialState.
  destruct (isAuthenticated_total now (localStorage b)) as [f ->].
  reflexivity.
Qed.


Lemma getToken_setToken token ls :
  storage.getToken (storage.setToken token ls) = Some token.
Proof. apply lookup_insert_eq. Qed.

Lemma getToken_removeToken ls :
  storage.getToken (storage.removeToken ls) = None.
Proof. apply lookup_delete_eq. Qed.

Lemma removeToken_idempotent ls :
  storage.removeToken (storage.removeToken ls) = storage.removeToken ls.
Proof.
  unfold storage.removeToken. apply delete_id, lookup_delete_eq.
Qed.

Lemma awayFromLogin_spec app :
  awayFromLogin app = true <-> pathname (browser app) <> lit "/login".
Proof.
  unfold awayFromLogin, jsstring_eqb. rewrite negb_true_iff.
  apply bool_decide_eq_false.
Qed.

(** A 401 away from the login screen ends in a freshly loaded login page
    with an empty Token Store and the flag cleared. *)
Lemma forcedLogout_away now error app :
  is401 error = true -> awayFromLogin app = true ->
  forcedLogout now error app =
    Normal {| browser :=
                {| localStorage := storage.removeToken (localStorage (browser app));
                   pathname := lit "/login"; hrefAssigned := [] |};
              isAuthenticated := false |}.
Proof.
  intros H401 Haway. unfold forcedLogout, respond, onResponseError.
  rewrite H401. unfold awayFromLogin in Haway. simpl. rewrite Haway. simpl.
  rewrite rev_app_distr. simpl. unfold pageLoad. rewrite mount_total. simpl.
  unfold mountEffect. rewrite getToken_removeToken. reflexivity.
Qed.

(** On the login screen the interceptor only clears the Token Store. *)
Lemma forcedLogout_onLogin now error app :
  is401 error = true -> awayFromLogin app = false ->
  hrefAssigned (browser app) = [] ->
  forcedLogout now error app =
    Normal {| browser :=
                {| localStorage := storage.removeToken (localStorage (browser app));
                   pathname := pathname (browser app); hrefAssigned := [] |};
              isAuthenticated := isAuthenticated app |}.
Proof.
  intros H401 Haway Hnav. unfold forcedLogout, respond, onResponseError.
  rewrite H401. unfold awayFromLogin in Haway. simpl. rewrite Haway. simpl.
  rewrite Hnav. reflexivity.
Qed.

End Session.

Section SessionClaims.
Import axiosInstance AuthContext.

(** After startup the flag says whether a non-empty token is stored; the
    validity check of the first render is overwritten by the mount effect. *)
Lemma mount_flag now b app :
  mount now b = Normal app ->
  isAuthenticated app = mountEffect (localStorage b) false.
Proof. rewrite mount_total. intros [= <-]. reflexivity. Qed.

(** C2: with an expired token in the Token Store, the validity check and
    [storage.isAuthenticated] say [false], yet startup ends with the
    session flag set. *)
Theorem mount_expired_token_authenticated :
  storage.getToken (localStorage (browserWith expiredToken (lit "/"))) =
    Some expiredToken /\
  storage.isTokenValid 2000000 expiredToken = Normal false /\
  storage.isAuthenticated 2000000
    (localStorage (browserWith expiredToken (lit "/"))) = Normal false /\
  initialState 2000000 (localStorage (browserWith expiredToken (lit "/"))) =
    Normal false /\
  mount 2000000 (browserWith expiredToken (lit "/")) =
    Normal {| browser := browserWith expiredToken (lit "/");
              isAuthenticated := true |}.
Proof. repeat split; vm_compute; reflexivity. Qed.


(** A forced logout is a response error handled by the running page,
    followed by the page load that the interceptor asked for. *)
Lemma reachable_forcedLogout handled now error app app' :
  reachable handled app -> handled error app = true ->
  forcedLogout now error app = Normal app' ->
  reachable handled app'.
Proof.
  intros R Hh. pose proof (reach_respond handled error app R Hh) as R'.
  unfold forcedLogout.
  destruct (rev (hrefAssigned (browser (fst (respond error app)))))
    as [|path earlier] eqn:Hrev.
  - intros [= <-]. exact R'.
  - intros Hload.
    apply (reach_pageLoad handled now path (rev earlier) _ _ R'); [|exact Hload].
    rewrite <- (rev_involutive (hrefAssigned _)), Hrev. reflexivity.
Qed.




End SessionClaims.

(** ** The HTTP client *)

#[local] Arguments axiosInstance.onResponseError : simpl never.
#[local] Arguments AuthContext.respond : simpl never.

Section HttpClient.
Import axiosInstance AuthContext.

Lemma respond_fst error app :
  fst (respond error app) =
    {| browser := fst (onResponseError error (browser app));
       isAuthenticated := isAuthenticated app |}.
Proof. reflexivity. Qed.

Lemma respond_browser error app :
  browser (fst (respond error app)) =
    fst (onResponseError error (browser app)).
Proof. reflexivity. Qed.

Lemma onResponseError_401 error b :
  is401 error = true ->
  fst (onResponseError error b) =
    {| localStorage := storage.removeToken (localStorage b);
       pathname := pathname b;
       hrefAssigned :=
         if jsstring_eqb (pathname b) (lit "/login") then hrefAssigned b
         else hrefAssigned b ++ [lit "/login"] |}.
Proof.
  intros H. unfold onResponseError. rewrite H. simpl.
  destruct (jsstring_eqb (pathname b) (lit "/login")); reflexivity.
Qed.

Lemma onResponseError_other error b :
  is401 error = false -> fst (onResponseError error b) = b.
Proof. intros H. unfold onResponseError. rewrite H. reflexivity. Qed.

Lemma respondAll_cons e errors app :
  respondAll (e :: errors) app = respondAll errors (fst (respond e app)).
Proof. reflexivity. Qed.

Lemma respondAll_pathname errors : forall app,
  pathname (browser (respondAll errors app)) = pathname (browser app).
Proof.
  induction errors as [|e errors IH]; intros app; [reflexivity|].
  rewrite respondAll_cons, IH, respond_browser.
  destruct (is401 e) eqn:H.
  - rewrite (onResponseError_401 e _ H). reflexivity.
  - rewrite (onResponseError_other e _ H). reflexivity.
Qed.

Lemma respondAll_cleared errors : forall app,
  storage.getToken (localStorage (browser app)) = None ->
  storage.getToken (localStorage (browser (respondAll errors app))) = None.
Proof.
  induction errors as [|e errors IH]; intros app Hn; [exact Hn|].
  rewrite respondAll_cons. apply IH. rewrite respond_browser.
  destruct (is401 e) eqn:H.
  - rewrite (onResponseError_401 e _ H). apply getToken_removeToken.
  - rewrite (onResponseError_other e _ H). exact Hn.
Qed.

Lemma respondAll_navigations errors : forall app,
  length (hrefAssigned (browser (respondAll errors app))) =
    (length (hrefAssigned (browser app)) +
     if awayFromLogin app then length (List.filter is401 errors) else 0)%nat.
Proof.
  induction errors as [|e errors IH]; intros app.
  - simpl. destruct (awayFromLogin app); lia.
  - rewrite respondAll_cons, IH.
    unfold awayFromLogin. rewrite respond_browser. cbn [List.filter].
    destruct (is401 e) eqn:H.
    + rewrite (onResponseError_401 e _ H). cbn [pathname hrefAssigned].
      destruct (jsstring_eqb (pathname (browser app)) (lit "/login"));
        cbn [negb length]; [lia|]. rewrite length_app. simpl. lia.
    + rewrite (onResponseError_other e _ H).
      destruct (jsstring_eqb (pathname (browser app)) (lit "/login")); simpl; lia.
Qed.

(** C4 (as amended): what the response interceptor does with a rejected
    response.  The error is rejected unchanged and the session flag is not
    written.  On status 401 the token is removed and, away from the login
    screen, one navigation to [/login] is requested, after which the page
    loads with the session Unauthenticated; on any other error nothing
    changes.  Each further 401 repeats the same steps: the Token Store
    stays empty and one more navigation is requested per error. *)
Theorem response_error_handling (error : AxiosError) (app : App) :
  let app' := fst (respond error app) in
  snd (respond error app) = error /\
  isAuthenticated app' = isAuthenticated app /\
  (is401 error = true ->
     localStorage (browser app') =
       storage.removeToken (localStorage (browser app)) /\
     storage.getToken (localStorage (browser app')) = None /\
     pathname (browser app') = pathname (browser app) /\
     hrefAssigned (browser app') =
       if awayFromLogin app then hrefAssigned (browser app) ++ [lit "/login"]
       else hrefAssigned (browser app)) /\
  (is401 error = false -> app' = app) /\
  (forall now, is401 error = true -> awayFromLogin app = true ->
     exists loaded,
       forcedLogout now error app = Normal loaded /\
       isAuthenticated loaded = false /\
       storage.getToken (localStorage (browser loaded)) = None /\
       pathname (browser loaded) = lit "/login") /\
  (forall errors, existsb is401 errors = true ->
     storage.getToken (localStorage (browser (respondAll errors app))) = None) /\
  (forall errors,
     length (hrefAssigned (browser (respondAll errors app))) =
       (length (hrefAssigned (browser app)) +
        if awayFromLogin app then length (List.filter is401 errors) else 0)%nat).
Proof.
  cbv zeta. repeat apply conj.
  - reflexivity.
  - reflexivity.
  - intros H. rewrite respond_browser, (onResponseError_401 error _ H).
    cbn [localStorage pathname hrefAssigned].
    repeat split; [apply getToken_removeToken|].
    unfold awayFromLogin. destruct (jsstring_eqb _ _); reflexivity.
  - intros H. rewrite respond_fst, (onResponseError_other error _ H).
    destruct app; reflexivity.
  - intros now H Haway. rewrite (forcedLogout_away now error app H Haway).
    eexists. split; [reflexivity|]. simpl.
    repeat split. apply getToken_removeToken.
  - intros errors. revert app.
    induction errors as [|e errors IH]; intros app He; [discriminate|].
    simpl in He. rewrite respondAll_cons.
    destruct (is401 e) eqn:H.
    + apply respondAll_cleared.
      rewrite respond_browser, (onResponseError_401 e _ H).
      apply getToken_removeToken.
    + apply IH, He.
  - intros errors. apply respondAll_navigations.
Qed.

(** C4 (as stated) fails.  When the error is passed on to the caller the
    session flag is still set (only the later page load resets it); two 401
    errors request the navigation twice; and a 401 that arrives on the login
    screen empties the Token Store but the session stays Authenticated. *)
Lemma unauthorized_on_login_keeps_flag :
  let away := {| browser := browserWith expiredToken (lit "/instances");
                 isAuthenticated := true |} in
  let app := {| browser := browserWith expiredToken (lit "/login");
                isAuthenticated := true |} in
  is401 unauthorized = true /\
  isAuthenticated (fst (respond unauthorized away)) = true /\
  hrefAssigned (browser (respondAll [unauthorized; unauthorized] away)) =
    [lit "/login"; lit "/login"] /\
  isAuthenticated (fst (respond unauthorized app)) = true /\
  forcedLogout 0 unauthorized app =
    Normal {| browser := emptyBrowser (lit "/login");
              isAuthenticated := true |}.
Proof. repeat split; reflexivity. Qed.




(** C7 (as amended): with a non-empty token in the Token Store the request
    interceptor sets [Authorization] to [Bearer ] followed by the token and
    changes nothing else; with no token, or an empty one, the configuration
    is forwarded as it is. *)
Theorem request_interceptor_cases (b : Browser) (config : RequestConfig) :
  (forall token, storage.getToken (localStorage b) = Some token -> token <> [] ->
     onRequest b config =
       {| method := method config;
          url := url config;
          headers := <[ lit "Authorization" := lit "Bearer " ++ token ]> (headers config);
          params := params config;
          data := data config |} /\
     headers (onRequest b config) !! lit "Authorization" =
       Some (lit "Bearer " ++ token)) /\
  (storage.getToken (localStorage b) = None \/
   storage.getToken (localStorage b) = Some [] ->
     onRequest b config = config) /\
  (forall name, name <> lit "Authorization" ->
     headers (onRequest b config) !! name = headers config !! name).
Proof.
  unfold onRequest. repeat apply conj.
  - intros token -> Hne. destruct token as [|c t]; [contradiction|].
    split; [reflexivity|]. simpl. apply lookup_insert_eq.
  - intros [-> | ->]; reflexivity.
  - intros name Hn.
    destruct (storage.getToken (localStorage b)) as [[|c t]|]; try reflexivity.
    simpl. apply lookup_insert_ne. congruence.
Qed.

(** C7 (as stated) fails: the Token Store can hold the empty string, and no
    header is then attached. *)
Lemma empty_token_not_attached :
  storage.getToken (localStorage (browserWith [] (lit "/instances"))) = Some [] /\
  onRequest (browserWith [] (lit "/instances")) listInstances = listInstances /\
  headers (onRequest (browserWith [] (lit "/instances")) listInstances)
    !! lit "Authorization" = None.
Proof. repeat split; vm_compute; reflexivity. Qed.

End HttpClient.

(** ** The API service layer *)

Section ServiceLayer.
Import axiosInstance services.

Lemma onResponseError_same error b : snd (onResponseError error b) = error.
Proof. reflexivity. Qed.

(** One request is sent, and it takes the next answer of the backend. *)
Lemma request_spec config w :
  sent (fst (request config w)) = sent w ++ [onRequest (browser w) config] /\
  backend (fst (request config w)) = tail (backend w) /\
  snd (request config w) = settle (nextAnswer w).
Proof.
  unfold request, nextAnswer.
  destruct (backend w) as [|a rest]; simpl.
  - repeat split; reflexivity.
  - destruct (settle a) as [r|e]; repeat split; reflexivity.
Qed.

Lemma api_call_spec config select fallback w :
  sent (fst (api_call config select fallback w)) =
    sent w ++ [onRequest (browser w) config] /\
  backend (fst (api_call config select fallback w)) = tail (backend w) /\
  snd (api_call config select fallback w) =
    match settle (nextAnswer w) with
    | Rejected e =>
        Throw (Error (errorMessage (lit fallback) (CaughtAxios e)))
    | Fulfilled r =>
        match select (response_data r) with
        | Normal v => Normal v
        | Throw _ => Throw (Error (JStr (lit fallback)))
        end
    end.
Proof.
  destruct (request_spec config w) as (Hs & Hb & Hr).
  unfold api_call. destruct (request config w) as [w' settled].
  simpl in Hs, Hb, Hr. rewrite <- Hr.
  destruct settled as [r|e].
  - destruct (select (response_data r)); repeat split; assumption.
  - repeat split; assumption.
Qed.

(** Every operation is [api_call] with its own request and its own
    fallback phrase. *)
Lemma perform_api_call op :
  exists config select,
    perform op = api_call config select (fallback_phrase op).
Proof. destruct op; do 2 eexists; reflexivity. Qed.

(** C6 (as amended): when the request of an operation is rejected, the
    operation throws a new [Error].  Its message is the error string of the
    response body when the body carries a non-empty one, and the
    operation's fallback phrase when the body carries no error value or a
    falsy one, such as the empty string.  Exactly one request is sent.
    (An error value that is truthy but not a string is left aside: the
    message is then its string form.) *)
Theorem service_error_normalised (op : Operation) (w : World) (e : AxiosError) :
  settle (nextAnswer w) = Rejected e ->
  (forall s, backendError (CaughtAxios e) = Some (JStr s) -> s <> [] ->
     snd (perform op w) = Throw (Error (JStr s))) /\
  ((backendError (CaughtAxios e) = None \/
    exists v, backendError (CaughtAxios e) = Some v /\ ToBoolean v = false) ->
     snd (perform op w) = Throw (Error (JStr (lit (fallback_phrase op))))) /\
  (exists config, sent (fst (perform op w)) = sent w ++ [config]) /\
  backend (fst (perform op w)) = tail (backend w) /\
  fallback_phrase GetInstances = "Failed to fetch instances."%string.
Proof.
  intros Hrej. destruct (perform_api_call op) as (config & select & ->).
  destruct (api_call_spec config select (fallback_phrase op) w) as (Hs & Hb & Hr).
  rewrite Hrej in Hr. rewrite Hr. unfold errorMessage.
  repeat apply conj.
  - intros s -> Hne. destruct s; [contradiction|reflexivity].
  - intros [-> | (v & -> & ->)]; reflexivity.
  - eauto.
  - exact Hb.
  - reflexivity.
Qed.

Lemma service_error_normalised_witness :
  let w := failingWith (JStr (lit "Instance limit reached")) in
  let e := {| response := Some {| status := 500;
                response_data :=
                  Some (JObj [(lit "error", JStr (lit "Instance limit reached"))]) |} |} in
  settle (nextAnswer w) = Rejected e /\
  snd (perform GetInstances w) =
    Throw (Error (JStr (lit "Instance limit reached"))) /\
  (exists config, sent (fst (perform GetInstances w)) = sent w ++ [config]).
Proof.
  cbv zeta. split; [reflexivity|].
  pose proof (service_error_normalised GetInstances
                (failingWith (JStr (lit "Instance limit reached"))) _ eq_refl)
    as (Hs & _ & Hsent & _).
  split; [|exact Hsent].
  apply Hs; [reflexivity|discriminate].
Defined.

(** C6 (as stated) fails: a response body that carries the empty error
    string gives the fallback phrase, not that string. *)
Lemma empty_error_string_gives_fallback :
  settle (nextAnswer (failingWith (JStr []))) =
    Rejected {| response := Some {| status := 500;
                  response_data := Some (JObj [(lit "error", JStr [])]) |} |} /\
  backendError (CaughtAxios
    {| response := Some {| status := 500;
         response_data := Some (JObj [(lit "error", JStr [])]) |} |})
    = Some (JStr []) /\
  snd (instanceService.getInstances (failingWith (JStr []))) =
    Throw (Error (JStr (lit "Failed to fetch instances."))).
Proof. repeat split; reflexivity. Qed.

(** A call also fails when a 2xx response cannot be read; the fallback
    phrase is thrown then. *)
Lemma service_unreadable_response op w r ex :
  settle (nextAnswer w) = Fulfilled r ->
  snd (perform op w) = Throw ex ->
  ex = Error (JStr (lit (fallback_phrase op))).
Proof.
  intros Hf. destruct (perform_api_call op) as (config & select & ->).
  destruct (api_call_spec config select (fallback_phrase op) w) as (_ & _ & Hr).
  rewrite Hf in Hr. rewrite Hr.
  destruct (select (response_data r)); [discriminate|].
  intros [= <-]. reflexivity.
Qed.

End ServiceLayer.

(** ** The polling fetch cycle *)

Section Polling.
Import InstanceMetricsPage.

(** A background cycle that fails changes nothing but the error, which it
    clears. *)
Lemma background_failure_state c id message st :
  fetchData (Some (c :: id)) true (Failed message) st = setError None st.
Proof. reflexivity. Qed.

(** C5: a failing background cycle leaves the loading state and the data
    alone, but an error that was displayed before the cycle is gone after
    it. *)
Theorem background_failure_clears_error :
  error staleError = Some (lit "Failed to fetch metrics.") /\
  error (fetchData_begin true staleError) = None /\
  error (fetchData (Some (lit "i-1")) true (Failed (lit "Network Error"))
           staleError) = None /\
  loading (fetchData (Some (lit "i-1")) true (Failed (lit "Network Error"))
             staleError) = loading staleError.
Proof. repeat split; reflexivity. Qed.

End Polling.

(** ** The password rules *)

Section Passwords.
Import passwordValidation.

(** C9: [abc] fails minLength, uppercase, number and special and passes
    lowercase; [Abcdef1!] passes the five rules. *)
Theorem password_examples :
  validatePasswordRules (lit "abc") =
    {| minLength := false; uppercase := false; lowercase := true;
       number := false; special := false |} /\
  validatePasswordRules (lit "Abcdef1!") =
    {| minLength := true; uppercase := true; lowercase := true;
       number := true; special := true |} /\
  isPasswordValid (lit "abc") = false /\
  isPasswordValid (lit "Abcdef1!") = true.
Proof. repeat split; vm_compute; reflexivity. Qed.

End Passwords.

(** * Further properties of the code *)

(** ** The Token Store *)

(** X1: the Token Store is a single slot.  A saved token is read back, a
    second save replaces the first, removal leaves no token, and neither
    operation touches another key of [localStorage]. *)
Theorem token_store_single_slot
    (t1 t2 : jsstring) (ls : gmap jsstring jsstring) (key : jsstring) :
  storage.getToken (storage.setToken t1 ls) = Some t1 /\
  storage.setToken t2 (storage.setToken t1 ls) = storage.setToken t2 ls /\
  storage.getToken (storage.removeToken (storage.setToken t1 ls)) = None /\
  storage.removeToken (storage.setToken t1 ls) = storage.removeToken ls /\
  (key <> storage.TOKEN_KEY ->
     storage.setToken t1 ls !! key = ls !! key /\
     storage.removeToken ls !! key = ls !! key).
Proof.
  unfold storage.getToken, storage.setToken, storage.removeToken.
  repeat apply conj.
  - apply lookup_insert_eq.
  - apply insert_insert_eq.
  - apply lookup_delete_eq.
  - apply delete_insert_eq.
  - intros Hk. split.
    + apply lookup_insert_ne. congruence.
    + apply lookup_delete_ne. congruence.
Qed.

(** X2: right after a save, [isAuthenticated] is the validity of the saved
    token (and false for the empty string); right after a removal it is
    false, whatever the clock says. *)
Theorem isAuthenticated_after_update
    (now : Z) (c : N) (t : jsstring) (ls : gmap jsstring jsstring) :
  storage.isAuthenticated now (storage.setToken (c :: t) ls) =
    storage.isTokenValid now (c :: t) /\
  storage.isAuthenticated now (storage.setToken [] ls) = Normal false /\
  storage.isAuthenticated now (storage.removeToken ls) = Normal false.
Proof.
  unfold storage.isAuthenticated.
  rewrite !getToken_setToken, getToken_removeToken. repeat split.
Qed.

Lemma split_go_no_dot s : forall cur,
  no_dot s = true -> split_go dot cur s = [rev cur ++ s].
Proof.
  induction s as [|c s IH]; intros cur H; simpl.
  - rewrite app_nil_r. reflexivity.
  - simpl in H. apply andb_true_iff in H as [Hc Hs].
    apply negb_true_iff in Hc. rewrite Hc, (IH _ Hs). simpl.
    rewrite <- app_assoc. reflexivity.
Qed.

Lemma split_go_segment s : forall cur rest,
  no_dot s = true ->
  split_go dot cur (s ++ dot :: rest) = (rev cur ++ s) :: split_go dot [] rest.
Proof.
  induction s as [|c s IH]; intros cur rest H; simpl.
  - rewrite ?N.eqb_refl, app_nil_r. reflexivity.
  - simpl in H. apply andb_true_iff in H as [Hc Hs].
    apply negb_true_iff in Hc. rewrite Hc, (IH _ _ Hs). simpl.
    rewrite <- app_assoc. reflexivity.
Qed.

Lemma split_three_segments a seg c :
  no_dot a = true -> no_dot seg = true -> no_dot c = true ->
  split "." (a ++ dot :: seg ++ dot :: c) = [a; seg; c].
Proof.
  intros Ha Hs Hc. unfold split. fold dot.
  rewrite (split_go_segment a [] _ Ha), (split_go_segment seg [] _ Hs),
    (split_go_no_dot c [] Hc). reflexivity.
Qed.

(** X3: the check looks at the middle segment only.  Two tokens with the
    same payload segment get the same verdict, whatever their header and
    signature segments are: the signature is never inspected. *)
Theorem isTokenValid_ignores_header_and_signature
    (now : Z) (a a' seg c c' : jsstring) :
  no_dot a = true -> no_dot a' = true -> no_dot seg = true ->
  no_dot c = true -> no_dot c' = true ->
  storage.isTokenValid now (a ++ dot :: seg ++ dot :: c) =
    storage.isTokenValid now (a' ++ dot :: seg ++ dot :: c').
Proof.
  intros Ha Ha' Hs Hc Hc'.
  pose proof (decodeJwtPayload_segments _ _ _ _ (split_three_segments a seg c Ha Hs Hc)) as H1.
  pose proof (decodeJwtPayload_segments _ _ _ _ (split_three_segments a' seg c' Ha' Hs Hc')) as H2.
  rewrite (isTokenValid_payload now _ _ H1), (isTokenValid_payload now _ _ H2).
  reflexivity.
Qed.

Lemma isTokenValid_ignores_header_and_signature_witness :
  no_dot (lit "h") = true /\ no_dot (lit "other-header") = true /\
  no_dot (lit "e30") = true /\ no_dot (lit "s") = true /\ no_dot [] = true /\
  storage.isTokenValid 0 (lit "h" ++ dot :: lit "e30" ++ dot :: lit "s") =
    storage.isTokenValid 0 (lit "other-header" ++ dot :: lit "e30" ++ dot :: []).
Proof.
  do 5 (split; [reflexivity|]).
  apply isTokenValid_ignores_header_and_signature; reflexivity.
Defined.

Lemma split_go_map (h : N -> N) :
  (forall c, N.eqb (h c) dot = N.eqb c dot) ->
  forall s cur,
    split_go dot (map h cur) (map h s) = map (map h) (split_go dot cur s).
Proof.
  intros Hh. induction s as [|c s IH]; intros cur; simpl.
  - rewrite map_rev. reflexivity.
  - rewrite Hh. destruct (N.eqb c dot).
    + simpl. rewrite map_rev. f_equal. apply (IH []).
    + apply (IH (c :: cur)).
Qed.

Lemma replace_all_keeps_dot x y c :
  is_char x dot = false -> is_char y dot = false ->
  N.eqb (if is_char x c then cu y else c) dot = N.eqb c dot.
Proof.
  unfold is_char. intros Hx Hy.
  destruct (N.eqb_spec c (cu x)) as [->|Hc]; [|reflexivity].
  rewrite N.eqb_sym, Hy, N.eqb_sym, Hx. reflexivity.
Qed.

Lemma base64url_json_standard_alphabet seg :
  base64url_json (replace_all "_" "/" (replace_all "-" "+" seg)) =
    base64url_json seg.
Proof.
  unfold base64url_json.
  assert (H : replace_all "_" "/" (replace_all "-" "+"
                (replace_all "_" "/" (replace_all "-" "+" seg))) =
              replace_all "_" "/" (replace_all "-" "+" seg)).
  { unfold replace_all. rewrite !map_map. apply map_ext. intros c.
    unfold is_char.
    destruct (N.eqb_spec c (cu "-")) as [->|H1]; [reflexivity|].
    destruct (N.eqb_spec c (cu "_")) as [->|H2]; [reflexivity|].
    destruct (N.eqb_spec c (cu "-")); [contradiction|].
    destruct (N.eqb_spec c (cu "_")); [contradiction|].
    reflexivity. }
  rewrite H. reflexivity.
Qed.

(** X4: the check accepts the standard base64 alphabet as well as the URL
    one.  Writing [+] for [-] and [/] for [_] anywhere in a token does not
    change the verdict. *)
Theorem isTokenValid_standard_alphabet (now : Z) (token : jsstring) :
  storage.isTokenValid now (replace_all "_" "/" (replace_all "-" "+" token)) =
    storage.isTokenValid now token.
Proof.
  set (h := fun c => if is_char "_" (if is_char "-" c then cu "+" else c)
                     then cu "/"
                     else if is_char "-" c then cu "+" else c).
  assert (Hmap : replace_all "_" "/" (replace_all "-" "+" token) = map h token).
  { unfold replace_all. rewrite map_map. reflexivity. }
  assert (Hh : forall c, N.eqb (h c) dot = N.eqb c dot).
  { intros c. unfold h.
    rewrite (replace_all_keeps_dot "_" "/"); [|reflexivity..].
    apply (replace_all_keeps_dot "-" "+"); reflexivity. }
  assert (Hsplit : split "." (map h token) = map (map h) (split "." token)).
  { unfold split. fold dot. apply (split_go_map h Hh token []). }
  assert (Hseg : forall seg, base64url_json (map h seg) = base64url_json seg).
  { intros seg. rewrite <- (base64url_json_standard_alphabet seg).
    unfold replace_all. rewrite map_map. reflexivity. }
  rewrite Hmap.
  destruct (split "." token) as [|a [|seg [|c [|d l]]]] eqn:Hs;
    try (rewrite (isTokenValid_payload now (map h token) JNull),
                 (isTokenValid_payload now token JNull);
         [reflexivity
         |apply decodeJwtPayload_malformed; intros ? ? ?; rewrite Hs; discriminate
         |apply decodeJwtPayload_malformed; intros ? ? ?; rewrite Hsplit;
          discriminate]).
  rewrite (isTokenValid_payload now (map h token) _
             (decodeJwtPayload_segments _ _ _ _ Hsplit)),
          (isTokenValid_payload now token _
             (decodeJwtPayload_segments _ _ _ _ Hs)).
  rewrite Hseg. reflexivity.
Qed.

(** ** Session transitions *)

Section SessionExtras.
Import axiosInstance AuthContext.

(** X5: how the transitions compose.  A logout undoes a login, a second
    login replaces the first, and a second logout changes nothing. *)
Theorem login_logout_compose (t1 t2 : jsstring) (app : App) :
  logout (login t1 app) = logout app /\
  login t2 (login t1 app) = login t2 app /\
  logout (logout app) = logout app /\
  login t2 (logout app) = login t2 app.
Proof.
  unfold login, logout, withStorage, storage.setToken, storage.removeToken.
  simpl. repeat apply conj; do 2 f_equal.
  - apply delete_insert_eq.
  - apply insert_insert_eq.
  - apply delete_delete_eq.
  - apply insert_delete_eq.
Qed.

(** X6: a session survives a reload.  Starting the application again right
    after [login] with a token that is valid at that time finds the same
    state: the first render is Authenticated and so is the state after the
    mount effect. *)
Theorem mount_after_login (now : Z) (c : N) (t : jsstring) (app : App) :
  storage.isTokenValid now (c :: t) = Normal true ->
  initialState now (localStorage (browser (login (c :: t) app))) = Normal true /\
  mount now (browser (login (c :: t) app)) = Normal (login (c :: t) app).
Proof.
  intros Hv. split.
  - unfold initialState, login, storage.isAuthenticated. simpl.
    rewrite getToken_setToken. exact Hv.
  - rewrite mount_total. unfold mountEffect, login. simpl.
    rewrite getToken_setToken. reflexivity.
Qed.

Lemma mount_after_login_witness :
  let app := {| browser := emptyBrowser (lit "/login");
                isAuthenticated := false |} in
  storage.isTokenValid 1700000000999 (lit "h.e30.s") = Normal true /\
  initialState 1700000000999
    (localStorage (browser (login (lit "h.e30.s") app))) = Normal true /\
  mount 1700000000999 (browser (login (lit "h.e30.s") app)) =
    Normal (login (lit "h.e30.s") app).
Proof.
  cbv zeta. split; [vm_compute; reflexivity|].
  apply (mount_after_login 1700000000999 104%N (lit ".e30.s")).
  vm_compute. reflexivity.
Defined.

(** X7: a logout survives a reload.  Starting the application again after
    [logout] finds the session Unauthenticated, at the first render and
    after the mount effect. *)
Theorem mount_after_logout (now : Z) (app : App) :
  initialState now (localStorage (browser (logout app))) = Normal false /\
  mount now (browser (logout app)) = Normal (logout app).
Proof.
  split.
  - unfold initialState, logout, storage.isAuthenticated. simpl.
    rewrite getToken_removeToken. reflexivity.
  - rewrite mount_total. unfold mountEffect, logout. simpl.
    rewrite getToken_removeToken. reflexivity.
Qed.

(** X8: after [handleLogout] the response interceptor has nothing left to
    do.  Whatever error arrives later, 401 or not, the application state
    stays as it is, no navigation is requested, and the error is passed on. *)
Theorem response_error_after_handleLogout (error : AxiosError) (app : App) :
  respond error (pages.handleLogout app) = (pages.handleLogout app, error).
Proof.
  unfold respond, onResponseError, pages.handleLogout, navigate, logout,
    withStorage. simpl.
  destruct (is401 error); [|reflexivity]. simpl.
  rewrite removeToken_idempotent. reflexivity.
Qed.

End SessionExtras.

(** ** The HTTP pipeline *)

Section PipelineExtras.
Import axiosInstance services.

(** X9: the request interceptor is idempotent, and with a token in the Token
    Store it overrides an [Authorization] header that the caller supplied. *)
Theorem onRequest_idempotent_overrides
    (b : Browser) (config : RequestConfig) (own : jsstring) :
  onRequest b (onRequest b config) = onRequest b config /\
  onRequest b {| method := method config; url := url config;
                 headers := <[ lit "Authorization" := own ]> (headers config);
                 params := params config; data := data config |} =
    match storage.getToken (localStorage b) with
    | Some (_ :: _) => onRequest b config
    | _ => {| method := method config; url := url config;
              headers := <[ lit "Authorization" := own ]> (headers config);
              params := params config; data := data config |}
    end.
Proof.
  unfold onRequest.
  destruct (storage.getToken (localStorage b)) as [[|c t]|]; simpl;
    split; try reflexivity; f_equal; apply insert_insert_eq.
Qed.

(** The browser after a request is the browser before it, unless the answer
    was a 401. *)
Lemma request_browser config w :
  browser (fst (request config w)) =
    match settle (nextAnswer w) with
    | Fulfilled _ => browser w
    | Rejected e => fst (onResponseError e (browser w))
    end.
Proof.
  unfold request, nextAnswer.
  destruct (backend w) as [|a rest]; simpl; [reflexivity|].
  destruct (settle a); reflexivity.
Qed.

Lemma settle_by_status r :
  settle (Responds r) =
    if (status r =? 0) || ((200 <=? status r) && (status r <? 300))
    then Fulfilled r
    else Rejected {| response := Some r |}.
Proof. reflexivity. Qed.

Lemma settle_fulfils r :
  status r = 0 \/ 200 <= status r < 300 -> settle (Responds r) = Fulfilled r.
Proof.
  intros H. rewrite settle_by_status.
  replace ((status r =? 0) || ((200 <=? status r) && (status r <? 300)))
    with true; [reflexivity|].
  symmetry. apply orb_true_iff. destruct H as [H|[Hlo Hhi]].
  - left. apply Z.eqb_eq, H.
  - right. apply andb_true_iff. split; [apply Z.leb_le|apply Z.ltb_lt]; lia.
Qed.

Lemma settle_rejects r :
  status r <> 0 -> ~ (200 <= status r < 300) ->
  settle (Responds r) = Rejected {| response := Some r |}.
Proof.
  intros H0 Hn. rewrite settle_by_status.
  replace ((status r =? 0) || ((200 <=? status r) && (status r <? 300)))
    with false; [reflexivity|].
  symmetry. apply orb_false_iff. split; [apply Z.eqb_neq, H0|].
  apply andb_false_iff.
  destruct (Z.leb_spec 200 (status r)); [|left; reflexivity].
  right. apply Z.ltb_ge. lia.
Qed.

Lemma request_fulfilled config w r :
  nextAnswer w = Responds r -> status r = 0 \/ 200 <= status r < 300 ->
  snd (request config w) = Fulfilled r /\
  browser (fst (request config w)) = browser w.
Proof.
  intros Ha Hs. destruct (request_spec config w) as (_ & _ & Hr).
  rewrite Hr, request_browser, Ha, (settle_fulfils r Hs).
  split; reflexivity.
Qed.

Lemma request_unauthorized config w r :
  nextAnswer w = Responds r -> status r = 401 ->
  snd (request config w) = Rejected {| response := Some r |} /\
  storage.getToken (localStorage (browser (fst (request config w)))) = None.
Proof.
  intros Ha H401. destruct (request_spec config w) as (_ & _ & Hr).
  rewrite Hr, request_browser, Ha, settle_rejects by lia.
  split; [reflexivity|].
  rewrite onResponseError_401; [apply getToken_removeToken|].
  unfold is401. cbn [response]. rewrite H401. reflexivity.
Qed.

Lemma request_other_status config w r :
  nextAnswer w = Responds r ->
  status r <> 0 -> ~ (200 <= status r < 300) -> status r <> 401 ->
  snd (request config w) = Rejected {| response := Some r |} /\
  browser (fst (request config w)) = browser w.
Proof.
  intros Ha H0 Hn H401. destruct (request_spec config w) as (_ & _ & Hr).
  rewrite Hr, request_browser, Ha, (settle_rejects r H0 Hn).
  split; [reflexivity|]. apply onResponseError_other.
  unfold is401. cbn [response]. apply Z.eqb_neq, H401.
Qed.

Lemma request_network_error config w :
  nextAnswer w = NetworkError ->
  snd (request config w) = Rejected {| response := None |} /\
  browser (fst (request config w)) = browser w.
Proof.
  intros Ha. destruct (request_spec config w) as (_ & _ & Hr).
  rewrite Hr, request_browser, Ha. split; reflexivity.
Qed.

(** X10: the outcome of a request by the status of the answer.  A 2xx
    status, and a response without a status (status 0), fulfils the
    promise; any other status, and a network failure, rejects it.  Only a
    401 changes the browser: the token is removed. *)
Theorem request_outcome_by_status (config : RequestConfig) (w : World) :
  (forall r, nextAnswer w = Responds r ->
     status r = 0 \/ 200 <= status r < 300 ->
     snd (request config w) = Fulfilled r /\
     browser (fst (request config w)) = browser w) /\
  (forall r, nextAnswer w = Responds r -> status r = 401 ->
     snd (request config w) = Rejected {| response := Some r |} /\
     storage.getToken (localStorage (browser (fst (request config w)))) = None) /\
  (forall r, nextAnswer w = Responds r ->
     status r <> 0 -> ~ (200 <= status r < 300) -> status r <> 401 ->
     snd (request config w) = Rejected {| response := Some r |} /\
     browser (fst (request config w)) = browser w) /\
  (nextAnswer w = NetworkError ->
     snd (request config w) = Rejected {| response := None |} /\
     browser (fst (request config w)) = browser w).
Proof.
  repeat apply conj.
  - intros r. apply request_fulfilled.
  - intros r. apply request_unauthorized.
  - intros r. apply request_other_status.
  - apply request_network_error.
Qed.

(** X11: after a 401 the next request goes out without a bearer: the
    interceptor leaves its configuration as the caller built it. *)
Theorem no_bearer_after_unauthorized
    (first next : RequestConfig) (w : World) (r : AxiosResponse) :
  nextAnswer w = Responds r -> status r = 401 ->
  onRequest (browser (fst (request first w))) next = next /\
  sent (fst (request next (fst (request first w)))) =
    sent w ++ [onRequest (browser w) first; next].
Proof.
  intros Ha H401.
  destruct (request_unauthorized first w r Ha H401) as (_ & Hnone).
  assert (Hn : onRequest (browser (fst (request first w))) next = next).
  { unfold onRequest. rewrite Hnone. reflexivity. }
  split; [exact Hn|].
  destruct (request_spec next (fst (request first w))) as (-> & _).
  destruct (request_spec first w) as (-> & _).
  rewrite Hn, <- app_assoc. reflexivity.
Qed.

Lemma no_bearer_after_unauthorized_witness :
  let w := {| browser := browserWith expiredToken (lit "/instances");
              backend := [Responds {| status := 401; response_data := None |}];
              sent := [] |} in
  nextAnswer w = Responds {| status := 401; response_data := None |} /\
  onRequest (browser (fst (request listInstances w))) listInstances =
    listInstances /\
  sent (fst (request listInstances (fst (request listInstances w)))) =
    sent w ++ [onRequest (browser w) listInstances; listInstances].
Proof.
  cbv zeta. split; [reflexivity|].
  eapply no_bearer_after_unauthorized; reflexivity.
Defined.

(** X12: the bearer on the wire is the token of the last login.  A request
    made after [login] with a non-empty token is sent with that token. *)
Theorem bearer_of_last_login
    (c : N) (t : jsstring) (app : AuthContext.App) (config : RequestConfig)
    (answers : list Answer) (log : list RequestConfig) :
  exists config',
    sent (fst (request config
                 {| browser := AuthContext.browser (AuthContext.login (c :: t) app);
                    backend := answers; sent := log |})) = log ++ [config'] /\
    headers config' !! lit "Authorization" = Some (lit "Bearer " ++ c :: t) /\
    method config' = method config /\ url config' = url config /\
    params config' = params config /\ data config' = data config.
Proof.
  eexists. split; [apply request_spec|]. simpl.
  unfold onRequest. simpl. rewrite getToken_setToken. simpl.
  split; [apply lookup_insert_eq|]. repeat split.
Qed.

(** X13: whatever goes wrong, a service operation throws a [new Error(arg)]
    and nothing else: never the raw rejection, never a [TypeError].  The
    argument is truthy: it is the fallback phrase of the operation or the
    error value of the rejected response.  When it is a string, which is
    then the message of the error, it is not empty.  (For a truthy value
    that is not a string the message is its string form, which can be
    empty, as for an empty array.) *)
Theorem service_throws_only_errors (op : Operation) (w : World) (ex : exn) :
  snd (perform op w) = Throw ex ->
  exists arg,
    ex = Error arg /\ ToBoolean arg = true /\
    (arg = JStr (lit (fallback_phrase op)) \/
     exists e, settle (nextAnswer w) = Rejected e /\
               backendError (CaughtAxios e) = Some arg) /\
    (forall s, arg = JStr s -> s <> []).
Proof.
  destruct (perform_api_call op) as (config & select & ->).
  destruct (api_call_spec config select (fallback_phrase op) w) as (_ & _ & ->).
  assert (Hf : ToBoolean (JStr (lit (fallback_phrase op))) = true)
    by (destruct op; reflexivity).
  assert (Hs : forall arg, ToBoolean arg = true ->
                 forall s, arg = JStr s -> s <> []).
  { intros arg Ht s -> ->. discriminate Ht. }
  destruct (settle (nextAnswer w)) as [r|e].
  - destruct (select (response_data r)); [discriminate|].
    intros [= <-]. eexists. split; [reflexivity|].
    split; [exact Hf|]. split; [left; reflexivity|apply Hs, Hf].
  - intros [= <-]. eexists. split; [reflexivity|]. unfold errorMessage.
    destruct (backendError (CaughtAxios e)) as [v|] eqn:Hv;
      [|split; [exact Hf|]; split; [left; reflexivity|apply Hs, Hf]].
    destruct (ToBoolean v) eqn:Ht.
    + split; [exact Ht|]. split; [right; eauto|apply Hs, Ht].
    + split; [exact Hf|]. split; [left; reflexivity|apply Hs, Hf].
Qed.

Lemma service_throws_only_errors_witness :
  snd (perform GetInstances (failingWith (JStr []))) =
    Throw (Error (JStr (lit "Failed to fetch instances."))) /\
  exists arg,
    Error (JStr (lit "Failed to fetch instances.")) = Error arg /\
    ToBoolean arg = true /\
    (arg = JStr (lit (fallback_phrase GetInstances)) \/
     exists e, settle (nextAnswer (failingWith (JStr []))) = Rejected e /\
               backendError (CaughtAxios e) = Some arg) /\
    (forall s, arg = JStr s -> s <> []).
Proof.
  split; [reflexivity|].
  apply (service_throws_only_errors GetInstances (failingWith (JStr []))).
  reflexivity.
Defined.

(** X14: a service operation touches the browser only on a 401.  For any
    other answer the Token Store, the path and the pending navigations are
    as before; on a 401 the token is gone and the error is still reported. *)
Theorem service_browser_frame (op : Operation) (w : World) :
  ((forall r, nextAnswer w = Responds r -> status r <> 401) ->
     browser (fst (perform op w)) = browser w) /\
  (forall r, nextAnswer w = Responds r -> status r = 401 ->
     storage.getToken (localStorage (browser (fst (perform op w)))) = None /\
     exists message, snd (perform op w) = Throw (Error message)).
Proof.
  destruct (perform_api_call op) as (config & select & Hp). rewrite Hp.
  assert (Hb : browser (fst (api_call config select (fallback_phrase op) w)) =
               browser (fst (request config w))).
  { unfold api_call. destruct (request config w) as [w' [r|e]]; simpl;
      [destruct (select (response_data r))|]; reflexivity. }
  rewrite Hb. split.
  - intros Hne. destruct (nextAnswer w) as [r|] eqn:Ha.
    + destruct (Z.eq_dec (status r) 0) as [H0|H0];
        [apply (request_fulfilled config w r Ha); left; exact H0|].
      destruct (Z_le_dec 200 (status r)) as [Hlo|Hlo];
        [destruct (Z_lt_dec (status r) 300) as [Hhi|Hhi]|].
      * apply (request_fulfilled config w r Ha). right. lia.
      * apply (request_other_status config w r Ha); [exact H0|lia|].
        apply (Hne r eq_refl).
      * apply (request_other_status config w r Ha); [exact H0|lia|].
        apply (Hne r eq_refl).
    + apply request_network_error. exact Ha.
  - intros r Ha Hs. split; [apply (request_unauthorized config w r Ha Hs)|].
    destruct (api_call_spec config select (fallback_phrase op) w) as (_ & _ & ->).
    rewrite Ha. simpl. rewrite Hs. simpl. eauto.
Qed.

End PipelineExtras.

(** ** The password rules, in general *)

Section PasswordExtras.
Import passwordValidation.

(** The five rules as one boolean. *)
Lemma isPasswordValid_rules password :
  isPasswordValid password =
    (8 <=? length password)%nat && existsb is_upper password
    && existsb is_lower password && existsb is_digit password
    && existsb is_special password.
Proof.
  unfold isPasswordValid, values, validatePasswordRules, test_class.
  cbn [forallb minLength uppercase lowercase number special].
  rewrite andb_true_r, !andb_assoc. reflexivity.
Qed.

(** X15: a password is valid exactly when it has at least eight code units
    and contains an upper-case letter, a lower-case letter, a digit, and a
    character that is none of these. *)
Theorem isPasswordValid_iff (password : jsstring) :
  isPasswordValid password = true <->
  (8 <= length password)%nat /\
  (exists c, In c password /\ is_upper c = true) /\
  (exists c, In c password /\ is_lower c = true) /\
  (exists c, In c password /\ is_digit c = true) /\
  (exists c, In c password /\ is_special c = true).
Proof.
  rewrite isPasswordValid_rules.
  rewrite !andb_true_iff, !existsb_exists, Nat.leb_le. tauto.
Qed.

(** X16: characters can only help.  A valid password stays valid when
    characters are added before it, after it, or both. *)
Theorem isPasswordValid_extend (before password after : jsstring) :
  isPasswordValid password = true ->
  isPasswordValid (before ++ password ++ after) = true.
Proof.
  rewrite !isPasswordValid_rules, !andb_true_iff, !existsb_app, !length_app.
  rewrite !Nat.leb_le, !orb_true_iff. intros ((((Hl & Hu) & Hlo) & Hd) & Hs).
  repeat split; auto. lia.
Qed.

Lemma isPasswordValid_extend_witness :
  isPasswordValid (lit "Abcdef1!") = true /\
  isPasswordValid (lit "xx" ++ lit "Abcdef1!" ++ lit " and more") = true.
Proof.
  split; [reflexivity|].
  apply isPasswordValid_extend. reflexivity.
Defined.

(** X17: what can never be a valid password: anything shorter than eight
    code units, and anything made of ASCII letters and digits only. *)
Theorem isPasswordValid_rejects (password : jsstring) :
  ((length password < 8)%nat -> isPasswordValid password = false) /\
  (forallb (fun c => negb (is_special c)) password = true ->
     isPasswordValid password = false).
Proof.
  rewrite isPasswordValid_rules. split; intros H.
  - apply Nat.leb_gt in H. rewrite H. reflexivity.
  - assert (Hs : existsb is_special password = false).
    { apply not_true_is_false. rewrite existsb_exists. intros (c & Hc & Hx).
      rewrite forallb_forall in H. specialize (H c Hc). rewrite Hx in H.
      discriminate. }
    rewrite Hs. apply andb_false_r.
Qed.

End PasswordExtras.

(** ** The fetch cycle, in general *)

Section FetchExtras.
Import InstanceMetricsPage.

(** X18: what a fetch cycle may change.  Without an instance id nothing
    happens.  A failed cycle never changes the data, in either mode.  A
    foreground cycle always ends with the spinner off, showing the failure
    message or no error.  A successful cycle replaces the data and clears
    the error; in the background it leaves the spinner as it was. *)
Theorem fetchData_outcomes
    (c : N) (id : jsstring) (background : bool) (st : PageState)
    (message : jsstring) (m d : JsValue) :
  fetchData None background (Failed message) st = st /\
  fetchData (Some []) background (Loaded m d) st = st /\
  (let st' := fetchData (Some (c :: id)) background (Failed message) st in
   metrics st' = metrics st /\ decisions st' = decisions st) /\
  (let st' := fetchData (Some (c :: id)) false (Failed message) st in
   loading st' = false /\ error st' = Some message) /\
  (let st' := fetchData (Some (c :: id)) background (Loaded m d) st in
   metrics st' = m /\ decisions st' = d /\ error st' = None /\
   loading st' = if background then loading st else false).
Proof.
  destruct background; repeat split.
Qed.

End FetchExtras.

(** ** The e-mail check *)

Section EmailExtras.
Import regex authChecks.

Lemma lang_never_inv s : lang Never s -> False.
Proof. intros H. inversion H. Qed.

Lemma lang_empty_inv s : lang Empty s -> s = [].
Proof. intros H. inversion H. reflexivity. Qed.

Lemma lang_class_inv p s : lang (Class p) s -> exists c, s = [c] /\ p c = true.
Proof. intros H. inversion H; subst. eauto. Qed.

Lemma lang_seq_inv r1 r2 s :
  lang (Seq r1 r2) s -> exists s1 s2, s = s1 ++ s2 /\ lang r1 s1 /\ lang r2 s2.
Proof. intros H. inversion H; subst. eauto. Qed.

Lemma lang_alt_inv r1 r2 s : lang (Alt r1 r2) s -> lang r1 s \/ lang r2 s.
Proof. intros H. inversion H; subst; auto. Qed.

Lemma nullable_lang r : nullable r = true <-> lang r [].
Proof.
  induction r as [| |p|r1 IH1 r2 IH2|r1 IH1 r2 IH2|r IH]; simpl.
  - split; [discriminate|]. intros H. destruct (lang_never_inv _ H).
  - split; [constructor|reflexivity].
  - split; [discriminate|]. intros H.
    apply lang_class_inv in H as (c & Hc & _). discriminate.
  - rewrite andb_true_iff, IH1, IH2. split.
    + intros [H1 H2]. apply (lang_seq r1 r2 [] [] H1 H2).
    + intros H. apply lang_seq_inv in H as (s1 & s2 & Heq & H1 & H2).
      symmetry in Heq. apply app_eq_nil in Heq as [-> ->]. auto.
  - rewrite orb_true_iff, IH1, IH2. split.
    + intros [H|H]; [apply lang_alt_l|apply lang_alt_r]; exact H.
    + apply lang_alt_inv.
  - split; [constructor|reflexivity].
Qed.

(** A non-empty word of [r*] starts with a non-empty word of [r]. *)
Lemma lang_star_cons r c s :
  lang (Star r) (c :: s) ->
  exists s1 s2, s = s1 ++ s2 /\ lang r (c :: s1) /\ lang (Star r) s2.
Proof.
  intros H. remember (Star r) as r' eqn:Hr. remember (c :: s) as w eqn:Hw.
  revert Hw. induction H as [| | | | | |r0 s1 s2 H1 _ H2 IH2]; try discriminate.
  injection Hr as ->. intros Hw.
  destruct s1 as [|c1 s1].
  - apply IH2; [reflexivity|exact Hw].
  - injection Hw as -> <-. eauto.
Qed.

Lemma deriv_lang r : forall c s, lang (deriv c r) s <-> lang r (c :: s).
Proof.
  induction r as [| |p|r1 IH1 r2 IH2|r1 IH1 r2 IH2|r IH]; intros c s; simpl.
  - split; intros H; destruct (lang_never_inv _ H).
  - split; intros H; [destruct (lang_never_inv _ H)|].
    apply lang_empty_inv in H. discriminate.
  - destruct (p c) eqn:Hp; split; intros H.
    + apply lang_empty_inv in H as ->. constructor. exact Hp.
    + apply lang_class_inv in H as (c' & [= -> ->] & _). constructor.
    + destruct (lang_never_inv _ H).
    + apply lang_class_inv in H as (c' & [= -> ->] & Hc). congruence.
  - assert (Hfwd : lang (Seq (deriv c r1) r2) s -> lang (Seq r1 r2) (c :: s)).
    { intros H. apply lang_seq_inv in H as (s1 & s2 & -> & H1 & H2).
      apply IH1 in H1. apply (lang_seq r1 r2 (c :: s1) s2 H1 H2). }
    assert (Hbwd : lang (Seq r1 r2) (c :: s) ->
                   lang (Seq (deriv c r1) r2) s \/
                   (lang r1 [] /\ lang (deriv c r2) s)).
    { intros H. apply lang_seq_inv in H as (s1 & s2 & Heq & H1 & H2).
      destruct s1 as [|c1 s1].
      - right. simpl in Heq. subst. split; [exact H1|]. apply IH2. exact H2.
      - left. injection Heq as -> ->. apply IH1 in H1.
        apply (lang_seq _ _ _ _ H1 H2). }
    destruct (nullable r1) eqn:Hn; split.
    + intros H. apply lang_alt_inv in H as [H|H]; [auto|].
      apply nullable_lang in Hn. apply IH2 in H.
      apply (lang_seq r1 r2 [] (c :: s) Hn H).
    + intros H. destruct (Hbwd H) as [Hl|[_ Hr]];
        [apply lang_alt_l|apply lang_alt_r]; assumption.
    + exact Hfwd.
    + intros H. destruct (Hbwd H) as [Hl|[Hnil _]]; [exact Hl|].
      apply nullable_lang in Hnil. congruence.
  - split; intros H; apply lang_alt_inv in H as [H|H].
    + apply lang_alt_l, IH1. assumption.
    + apply lang_alt_r, IH2. assumption.
    + apply lang_alt_l, IH1. assumption.
    + apply lang_alt_r, IH2. assumption.
  - split.
    + intros H. apply lang_seq_inv in H as (s1 & s2 & -> & H1 & H2).
      apply IH in H1. apply (lang_star_app r (c :: s1) s2 H1 H2).
    + intros H. apply lang_star_cons in H as (s1 & s2 & -> & H1 & H2).
      apply IH in H1. apply (lang_seq _ _ _ _ H1 H2).
Qed.

(** The matcher decides the language. *)
Lemma matches_lang s : forall r, matches r s = true <-> lang r s.
Proof.
  induction s as [|c s IH]; intros r; simpl.
  - apply nullable_lang.
  - rewrite IH. apply deriv_lang.
Qed.

Lemma lang_star_class p s : lang (Star (Class p)) s <-> forallb p s = true.
Proof.
  split.
  - intros H. remember (Star (Class p)) as r eqn:Hr.
    induction H as [| | | | | |r0 s1 s2 H1 _ H2 IH2]; try discriminate;
      [reflexivity|].
    injection Hr as ->. apply lang_class_inv in H1 as (c & -> & Hc). simpl.
    rewrite (IH2 eq_refl), Hc. reflexivity.
  - induction s as [|c s IH]; simpl; intros H; [constructor|].
    apply andb_true_iff in H as [Hc Hs].
    apply (lang_star_app (Class p) [c] s); [constructor; exact Hc|auto].
Qed.

Lemma lang_plus_class p s :
  lang (Plus (Class p)) s <-> s <> [] /\ forallb p s = true.
Proof.
  unfold Plus. split.
  - intros H. apply lang_seq_inv in H as (s1 & s2 & -> & H1 & H2).
    apply lang_class_inv in H1 as (c & -> & Hc).
    apply lang_star_class in H2. simpl.
    split; [discriminate|]. rewrite H2, Hc. reflexivity.
  - intros [Hne H]. destruct s as [|c s]; [contradiction|].
    simpl in H. apply andb_true_iff in H as [Hc Hs].
    apply (lang_seq (Class p) _ [c] s); [constructor; exact Hc|].
    apply lang_star_class, Hs.
Qed.

Lemma lang_atleast2_class p s :
  lang (AtLeast2 (Class p)) s <-> (2 <= length s)%nat /\ forallb p s = true.
Proof.
  unfold AtLeast2. split.
  - intros H. apply lang_seq_inv in H as (s1 & s2 & -> & H1 & H2).
    apply lang_class_inv in H1 as (c1 & -> & Hc1).
    apply lang_seq_inv in H2 as (s3 & s4 & -> & H3 & H4).
    apply lang_class_inv in H3 as (c2 & -> & Hc2).
    apply lang_star_class in H4. simpl.
    split; [lia|]. rewrite H4, Hc1, Hc2. reflexivity.
  - intros [Hl H]. destruct s as [|c1 [|c2 s]]; simpl in Hl; try lia.
    simpl in H. apply andb_true_iff in H as [H1 H].
    apply andb_true_iff in H as [H2 H].
    apply (lang_seq (Class p) _ [c1] (c2 :: s)); [constructor; exact H1|].
    apply (lang_seq (Class p) _ [c2] s); [constructor; exact H2|].
    apply lang_star_class, H.
Qed.

Lemma lang_char a s : lang (Char a) s <-> s = [cu a].
Proof.
  unfold Char. split.
  - intros H. apply lang_class_inv in H as (c & -> & Hc).
    unfold is_char in Hc. apply N.eqb_eq in Hc. subst. reflexivity.
  - intros ->. constructor. unfold is_char. apply N.eqb_refl.
Qed.

Lemma isValidEmail_lang email :
  isValidEmail email = true <-> lang emailRegex email.
Proof. apply matches_lang. Qed.

(** The language of the e-mail pattern. *)
Lemma emailRegex_lang email :
  lang emailRegex email <->
  exists loc dom tld,
    email = loc ++ cu "@" :: dom ++ cu "." :: tld /\
    loc <> [] /\ forallb localClass loc = true /\
    dom <> [] /\ forallb domainClass dom = true /\
    (2 <= length tld)%nat /\ forallb letterClass tld = true.
Proof.
  unfold emailRegex. split.
  - intros H.
    apply lang_seq_inv in H as (loc & s1 & -> & Hloc & H).
    apply lang_seq_inv in H as (at_ & s2 & -> & Hat & H).
    apply lang_seq_inv in H as (dom & s3 & -> & Hdom & H).
    apply lang_seq_inv in H as (dt & tld & -> & Hdt & Htld).
    apply lang_plus_class in Hloc as [? ?].
    apply lang_char in Hat as ->.
    apply lang_plus_class in Hdom as [? ?].
    apply lang_char in Hdt as ->.
    apply lang_atleast2_class in Htld as [? ?].
    exists loc, dom, tld. simpl. auto 10.
  - intros (loc & dom & tld & -> & Hl1 & Hl2 & Hd1 & Hd2 & Ht1 & Ht2).
    apply lang_seq; [apply lang_plus_class; auto|].
    apply (lang_seq _ _ [cu "@"]); [apply lang_char; reflexivity|].
    apply lang_seq; [apply lang_plus_class; auto|].
    apply (lang_seq _ _ [cu "."]); [apply lang_char; reflexivity|].
    apply lang_atleast2_class. auto.
Qed.

(** X19: the e-mail check, spelled out.  An address is accepted exactly when
    it is a non-empty local part of letters, digits and [._%+-], an [@], a
    non-empty domain of letters, digits, dots and hyphens, a dot, and a
    final label of at least two letters. *)
Theorem isValidEmail_iff (email : jsstring) :
  isValidEmail email = true <->
  exists loc dom tld,
    email = loc ++ cu "@" :: dom ++ cu "." :: tld /\
    loc <> [] /\ forallb localClass loc = true /\
    dom <> [] /\ forallb domainClass dom = true /\
    (2 <= length tld)%nat /\ forallb letterClass tld = true.
Proof.
  rewrite isValidEmail_lang. apply emailRegex_lang.
Qed.

Example isValidEmail_examples :
  isValidEmail (lit "user@example.com") = true /\
  isValidEmail (lit "a.b+tag@sub-domain.example.org") = true /\
  isValidEmail (lit "a@b..com") = true /\
  isValidEmail (lit ".@-.io") = true /\
  isValidEmail [] = false /\
  isValidEmail (lit "user@example") = false /\
  isValidEmail (lit "user@example.c") = false /\
  isValidEmail (lit "user@.com") = false /\
  isValidEmail (lit "@example.com") = false /\
  isValidEmail (lit "us er@example.com") = false /\
  isValidEmail (lit "a@b@example.com") = false /\
  isValidEmail (lit "user@example.c0m") = false.
Proof. repeat split; vm_compute; reflexivity. Qed.

End EmailExtras.

#[local] Arguments cu : simpl never.

Section EmailShape.
Import authChecks.

Lemma count_at_class (p : N -> bool) s :
  p (cu "@") = false -> forallb p s = true ->
  count_occ N.eq_dec s (cu "@") = 0%nat.
Proof.
  intros Hp. induction s as [|c s IH]; simpl; [reflexivity|].
  intros H. apply andb_true_iff in H as [Hc Hs].
  destruct (N.eq_dec c (cu "@")) as [->|_]; [congruence|]. apply IH, Hs.
Qed.

(** X20: what every accepted address looks like.  It has at least six
    code units, exactly one [@], and no character besides ASCII letters,
    digits and [._%+-@]; in particular no white space. *)
Theorem isValidEmail_shape (email : jsstring) :
  isValidEmail email = true ->
  (6 <= length email)%nat /\
  count_occ N.eq_dec email (cu "@") = 1%nat /\
  forallb (fun c => localClass c || is_char "@" c) email = true.
Proof.
  intros H. apply isValidEmail_lang, emailRegex_lang in H
    as (loc & dom & tld & -> & Hl1 & Hl2 & Hd1 & Hd2 & Ht1 & Ht2).
  assert (Hdl : forall s, forallb domainClass s = true ->
                          forallb (fun c => localClass c || is_char "@" c) s = true).
  { intros s Hs. rewrite forallb_forall in *. intros c Hc.
    specialize (Hs c Hc). unfold domainClass in Hs. unfold localClass.
    repeat (apply orb_true_iff in Hs as [Hs|Hs]); rewrite Hs;
      repeat rewrite ?orb_true_r, ?orb_true_l; reflexivity. }
  assert (Htl : forall s, forallb letterClass s = true ->
                          forallb domainClass s = true).
  { intros s Hs. rewrite forallb_forall in *. intros c Hc.
    specialize (Hs c Hc). unfold letterClass in Hs. unfold domainClass.
    apply orb_true_iff in Hs as [Hs|Hs]; rewrite Hs;
      repeat rewrite ?orb_true_r, ?orb_true_l; reflexivity. }
  repeat apply conj.
  - destruct loc; [contradiction|]. destruct dom; [contradiction|].
    rewrite length_app. simpl. rewrite length_app. simpl. lia.
  - rewrite count_occ_app. simpl.
    destruct (N.eq_dec (cu "@") (cu "@")) as [_|Hn]; [|contradiction].
    rewrite count_occ_app. simpl.
    destruct (N.eq_dec (cu ".") (cu "@")) as [Hn|_]; [discriminate|].
    rewrite (count_at_class localClass loc eq_refl Hl2),
            (count_at_class domainClass dom eq_refl Hd2),
            (count_at_class letterClass tld eq_refl Ht2).
    reflexivity.
  - rewrite forallb_app. simpl. rewrite forallb_app. simpl.
    rewrite (Hdl dom Hd2), (Hdl tld (Htl tld Ht2)).
    assert (Hll : forallb (fun c => localClass c || is_char "@" c) loc = true).
    { rewrite forallb_forall in *. intros c Hc. rewrite (Hl2 c Hc). reflexivity. }
    rewrite Hll. reflexivity.
Qed.

Lemma isValidEmail_shape_witness :
  isValidEmail (lit "user@example.com") = true /\
  (6 <= length (lit "user@example.com"))%nat /\
  count_occ N.eq_dec (lit "user@example.com") (cu "@") = 1%nat /\
  forallb (fun c => localClass c || is_char "@" c) (lit "user@example.com") = true.
Proof.
  split; [reflexivity|].
  apply isValidEmail_shape. reflexivity.
Defined.

End EmailShape.

(** ** The login and registration forms *)

Section FormExtras.
Import axiosInstance services forms.

Lemma request_world config w :
  fst (request config w) =
    {| browser := match settle (nextAnswer w) with
                  | Fulfilled _ => browser w
                  | Rejected e => fst (onResponseError e (browser w))
                  end;
       backend := tail (backend w);
       sent := sent w ++ [onRequest (browser w) config] |}.
Proof.
  unfold request, nextAnswer.
  destruct (backend w) as [|a rest]; [reflexivity|].
  destruct (settle a); reflexivity.
Qed.

Lemma api_call_world config select fallback w :
  fst (api_call config select fallback w) = fst (request config w).
Proof.
  unfold api_call. destruct (request config w) as [w' [r|e]]; simpl;
    [destruct (select (response_data r))|]; reflexivity.
Qed.

(** A call that returns the whole body. *)
Lemma api_call_whole config fallback w :
  api_call config whole fallback w =
    (fst (request config w),
     match settle (nextAnswer w) with
     | Fulfilled r => Normal (response_data r)
     | Rejected e => Throw (Error (errorMessage (lit fallback) (CaughtAxios e)))
     end).
Proof.
  rewrite (surjective_pairing (api_call config whole fallback w)).
  rewrite api_call_world.
  destruct (api_call_spec config whole fallback w) as (_ & _ & ->).
  destruct (settle (nextAnswer w)); reflexivity.
Qed.

Lemma nextAnswer_toWorld c :
  nextAnswer (toWorld c) =
    match answers c with a :: _ => a | [] => NetworkError end.
Proof. reflexivity. Qed.

Lemma settle_ok r :
  200 <= status r < 300 -> settle (Responds r) = Fulfilled r.
Proof.
  intros Hs. apply settle_fulfils. right. exact Hs.
Qed.

(** X21: the login form keeps invalid input away from the network.  When
    the session is already authenticated, or the e-mail or the password
    fails its check, no request is sent and the Token Store and the session
    flag stay as they are; the invalid input is reported on the form. *)
Theorem login_rejected_locally
    (P : Platform) (form : LoginPage.Form) (c : Client) :
  AuthContext.isAuthenticated (session c) = true \/
  authChecks.isValidEmail (LoginPage.email form) = false \/
  authChecks.isValidPassword (LoginPage.password form) = false ->
  requests (snd (LoginPage.handleSubmit P form c)) = requests c /\
  answers (snd (LoginPage.handleSubmit P form c)) = answers c /\
  localStorage (AuthContext.browser (session (snd (LoginPage.handleSubmit P form c)))) =
    localStorage (AuthContext.browser (session c)) /\
  AuthContext.isAuthenticated (session (snd (LoginPage.handleSubmit P form c))) =
    AuthContext.isAuthenticated (session c) /\
  LoginPage.loading (fst (LoginPage.handleSubmit P form c)) = LoginPage.loading form /\
  (AuthContext.isAuthenticated (session c) = false ->
     snd (LoginPage.handleSubmit P form c) = c /\
     LoginPage.error (fst (LoginPage.handleSubmit P form c)) =
       Some (lit "Please enter valid email and password")).
Proof.
  intros H. unfold LoginPage.handleSubmit.
  destruct (AuthContext.isAuthenticated (session c)) eqn:Hauth.
  - simpl. repeat split; try assumption; discriminate.
  - destruct H as [H|H]; [discriminate|].
    assert (Hv : negb (authChecks.isValidEmail (LoginPage.email
                         (LoginPage.setError None form)))
                 || negb (authChecks.isValidPassword (LoginPage.password
                            (LoginPage.setError None form))) = true).
    { simpl. destruct H as [-> | ->]; simpl; [reflexivity|apply orb_true_r]. }
    rewrite Hv. simpl. repeat split. exact Hauth.
Qed.

Lemma login_rejected_locally_witness :
  let form := {| LoginPage.email := lit "user@example.com";
                 LoginPage.password := lit "abc";
                 LoginPage.loading := false; LoginPage.error := None |} in
  let c := visitor (lit "/login") [NetworkError] in
  authChecks.isValidPassword (LoginPage.password form) = false /\
  requests (snd (LoginPage.handleSubmit somePlatform form c)) = requests c /\
  snd (LoginPage.handleSubmit somePlatform form c) = c.
Proof.
  cbv zeta. split; [reflexivity|].
  destruct (login_rejected_locally somePlatform
              {| LoginPage.email := lit "user@example.com";
                 LoginPage.password := lit "abc";
                 LoginPage.loading := false; LoginPage.error := None |}
              (visitor (lit "/login") [NetworkError]))
    as (Hr & _ & _ & _ & _ & Hc).
  - right. right. reflexivity.
  - split; [exact Hr|]. apply Hc. reflexivity.
Defined.

(** X22: a successful login, end to end.  With valid input and a 2xx answer
    whose body carries a string [token], exactly one request goes out (the
    login call with these credentials); afterwards the Token Store holds that
    token, the session is Authenticated, the path is [/instances], and the
    form shows neither spinner nor error. *)
Theorem login_success_signs_in
    (P : Platform) (form : LoginPage.Form) (c : Client)
    (r : AxiosResponse) (rest : list Answer)
    (members : list (jsstring * JsValue)) (token : jsstring) :
  AuthContext.isAuthenticated (session c) = false ->
  authChecks.isValidEmail (LoginPage.email form) = true ->
  authChecks.isValidPassword (LoginPage.password form) = true ->
  answers c = Responds r :: rest ->
  200 <= status r < 300 ->
  response_data r = Some (JObj members) ->
  get_member (lit "token") members = Some (JStr token) ->
  let form' := fst (LoginPage.handleSubmit P form c) in
  let c' := snd (LoginPage.handleSubmit P form c) in
  storage.getToken (localStorage (AuthContext.browser (session c'))) = Some token /\
  AuthContext.isAuthenticated (session c') = true /\
  pathname (AuthContext.browser (session c')) = lit "/instances" /\
  requests c' =
    requests c ++ [onRequest (AuthContext.browser (session c))
                     (loginRequest (LoginPage.email form) (LoginPage.password form))] /\
  answers c' = rest /\
  LoginPage.loading form' = false /\ LoginPage.error form' = None.
Proof.
  intros Hauth He Hp Ha Hs Hd Ht. cbv zeta. unfold LoginPage.handleSubmit.
  rewrite Hauth. cbn [LoginPage.email LoginPage.password LoginPage.setError].
  rewrite He, Hp. cbn [negb orb].
  unfold authService.login. rewrite api_call_whole, request_world.
  rewrite nextAnswer_toWorld, Ha, (settle_ok r Hs).
  cbn [bind]. unfold field. rewrite Hd. cbn [get_prop]. rewrite Ht.
  cbn [fst snd]. unfold signIn, onSession, fromWorld, toWorld. simpl.
  rewrite Ha. simpl. rewrite getToken_setToken. repeat split.
Qed.

Lemma login_success_signs_in_witness :
  let form := {| LoginPage.email := lit "user@example.com";
                 LoginPage.password := lit "Abcdef1!";
                 LoginPage.loading := false; LoginPage.error := None |} in
  let c := visitor (lit "/login")
             [okWith (JObj [(lit "token", JStr (lit "x.y.z"))])] in
  authChecks.isValidEmail (LoginPage.email form) = true /\
  authChecks.isValidPassword (LoginPage.password form) = true /\
  storage.getToken (localStorage (AuthContext.browser
    (session (snd (LoginPage.handleSubmit somePlatform form c))))) =
    Some (lit "x.y.z") /\
  AuthContext.isAuthenticated
    (session (snd (LoginPage.handleSubmit somePlatform form c))) = true.
Proof.
  cbv zeta. do 2 (split; [reflexivity|]).
  destruct (login_success_signs_in somePlatform
              {| LoginPage.email := lit "user@example.com";
                 LoginPage.password := lit "Abcdef1!";
                 LoginPage.loading := false; LoginPage.error := None |}
              (visitor (lit "/login")
                 [okWith (JObj [(lit "token", JStr (lit "x.y.z"))])])
              {| status := 200;
                 response_data := Some (JObj [(lit "token", JStr (lit "x.y.z"))]) |}
              [] [(lit "token", JStr (lit "x.y.z"))] (lit "x.y.z"))
    as (H1 & H2 & _); try reflexivity; [simpl; lia|].
  split; assumption.
Defined.

(** X23: a failed login.  With valid input and a rejected request, the form
    reports the backend's error string (or the fallback phrase when there is
    none), the spinner is off, the session stays Unauthenticated on the same
    path, exactly one request was sent, and unless the status was 401 the
    Token Store is untouched. *)
Theorem login_failure_reports
    (P : Platform) (form : LoginPage.Form) (c : Client) (e : AxiosError) :
  AuthContext.isAuthenticated (session c) = false ->
  authChecks.isValidEmail (LoginPage.email form) = true ->
  authChecks.isValidPassword (LoginPage.password form) = true ->
  settle (nextAnswer (toWorld c)) = Rejected e ->
  let form' := fst (LoginPage.handleSubmit P form c) in
  let c' := snd (LoginPage.handleSubmit P form c) in
  (forall s, backendError (CaughtAxios e) = Some (JStr s) -> s <> [] ->
     LoginPage.error form' = Some s) /\
  (backendError (CaughtAxios e) = None ->
     LoginPage.error form' = Some (lit "Login failed. Please try again.")) /\
  LoginPage.loading form' = false /\
  AuthContext.isAuthenticated (session c') = false /\
  pathname (AuthContext.browser (session c')) =
    pathname (AuthContext.browser (session c)) /\
  requests c' =
    requests c ++ [onRequest (AuthContext.browser (session c))
                     (loginRequest (LoginPage.email form) (LoginPage.password form))] /\
  (is401 e = false -> session c' = session c).
Proof.
  intros Hauth He Hp Hr. cbv zeta. unfold LoginPage.handleSubmit.
  rewrite Hauth. cbn [LoginPage.email LoginPage.password LoginPage.setError].
  rewrite He, Hp. cbn [negb orb].
  unfold authService.login. rewrite api_call_whole, request_world, Hr.
  remember (errorMessage (lit "Login failed. Please try again.") (CaughtAxios e))
    as msg eqn:Hmsg.
  remember (fst (onResponseError e (browser (toWorld c)))) as b' eqn:Hb'.
  cbn [bind fst snd]. unfold fromWorld.
  cbn [LoginPage.error LoginPage.loading LoginPage.setLoading LoginPage.setError
       session AuthContext.isAuthenticated AuthContext.browser requests
       browser backend sent toWorld].
  unfold errorMessage in Hmsg.
  repeat apply conj; try reflexivity.
  - intros s Hs Hne. rewrite Hs in Hmsg. subst msg.
    destruct s; [contradiction|reflexivity].
  - intros Hn. rewrite Hn in Hmsg. subst msg. reflexivity.
  - exact Hauth.
  - subst b'. cbn [toWorld browser]. destruct (is401 e) eqn:H4.
    + rewrite (onResponseError_401 e _ H4). reflexivity.
    + rewrite (onResponseError_other e _ H4). reflexivity.
  - intros H4. subst b'. cbn [toWorld browser].
    rewrite (onResponseError_other e _ H4).
    destruct (session c) as [b f]. simpl in *. subst. reflexivity.
Qed.

Lemma login_failure_reports_witness :
  let form := {| LoginPage.email := lit "user@example.com";
                 LoginPage.password := lit "Abcdef1!";
                 LoginPage.loading := false; LoginPage.error := None |} in
  let c := visitor (lit "/login")
             [Responds {| status := 401;
                response_data := Some (JObj [(lit "error", JStr (lit "Invalid credentials"))]) |}] in
  settle (nextAnswer (toWorld c)) =
    Rejected {| response := Some {| status := 401;
       response_data := Some (JObj [(lit "error", JStr (lit "Invalid credentials"))]) |} |} /\
  LoginPage.error (fst (LoginPage.handleSubmit somePlatform form c)) =
    Some (lit "Invalid credentials") /\
  AuthContext.isAuthenticated
    (session (snd (LoginPage.handleSubmit somePlatform form c))) = false.
Proof.
  cbv zeta. split; [reflexivity|].
  destruct (login_failure_reports somePlatform
              {| LoginPage.email := lit "user@example.com";
                 LoginPage.password := lit "Abcdef1!";
                 LoginPage.loading := false; LoginPage.error := None |}
              (visitor (lit "/login")
                 [Responds {| status := 401;
                    response_data := Some (JObj [(lit "error", JStr (lit "Invalid credentials"))]) |}])
              _ eq_refl eq_refl eq_refl eq_refl)
    as (Hs & _ & _ & Hf & _).
  split; [|exact Hf].
  apply Hs; [reflexivity|discriminate].
Defined.

End FormExtras.

Section RegisterExtras.
Import axiosInstance services forms.

(** X24: the registration form checks its input in a fixed order (empty
    fields, e-mail, password rules, confirmation) and reports the first
    failure; in each case nothing is sent and the client is unchanged. *)
Theorem register_rejected_locally
    (P : Platform) (form : RegisterPage.Form) (c : Client) :
  let isBlank := RegisterPage.blank (RegisterPage.email form)
                 || RegisterPage.blank (RegisterPage.password form)
                 || RegisterPage.blank (RegisterPage.confirmPassword form) in
  let out := RegisterPage.handleSubmit P form c in
  (isBlank = true ->
     RegisterPage.error (fst out) = Some (lit "Please fill in all fields") /\
     snd out = c) /\
  (isBlank = false ->
   authChecks.isValidEmail (RegisterPage.email form) = false ->
     RegisterPage.error (fst out) = Some (lit "Please enter a valid email address") /\
     snd out = c) /\
  (isBlank = false ->
   authChecks.isValidEmail (RegisterPage.email form) = true ->
   authChecks.isValidPassword (RegisterPage.password form) = false ->
     RegisterPage.error (fst out) =
       Some (lit "Password must be at least 8 characters and include uppercase, lowercase, a number, and a special character") /\
     snd out = c) /\
  (isBlank = false ->
   authChecks.isValidEmail (RegisterPage.email form) = true ->
   authChecks.isValidPassword (RegisterPage.password form) = true ->
   RegisterPage.password form <> RegisterPage.confirmPassword form ->
     RegisterPage.error (fst out) = Some (lit "Passwords do not match") /\
     snd out = c) /\
  (registrationValid form = false ->
     snd out = c /\
     RegisterPage.loading (fst out) = RegisterPage.loading form /\
     RegisterPage.success (fst out) = RegisterPage.success form).
Proof.
  cbv zeta. unfold RegisterPage.handleSubmit, registrationValid.
  cbn [RegisterPage.email RegisterPage.password RegisterPage.confirmPassword
       RegisterPage.setError].
  destruct (RegisterPage.blank (RegisterPage.email form)
            || RegisterPage.blank (RegisterPage.password form)
            || RegisterPage.blank (RegisterPage.confirmPassword form));
    [repeat split; discriminate|].
  destruct (authChecks.isValidEmail (RegisterPage.email form));
    [|repeat split; discriminate].
  destruct (authChecks.isValidPassword (RegisterPage.password form));
    [|repeat split; discriminate].
  unfold jsstring_eqb. case_bool_decide as Heq.
  - repeat split; try discriminate. all: intros; contradiction.
  - repeat split; discriminate.
Qed.

(** With valid input the handler goes to the network. *)
Lemma register_valid_unfold P form c :
  registrationValid form = true ->
  RegisterPage.handleSubmit P form c =
    let form0 := RegisterPage.setLoading true (RegisterPage.setError None form) in
    let '(w1, registered) :=
      authService.register (RegisterPage.email form) (RegisterPage.password form)
        (toWorld c) in
    match registered with
    | Throw err => (RegisterPage.failed P err form0, fromWorld c w1)
    | Normal _ =>
        let form1 := RegisterPage.setSuccess true form0 in
        let '(w2, loginResponse) :=
          authService.login (RegisterPage.email form) (RegisterPage.password form) w1 in
        match (let* response := loginResponse in field "token" response) with
        | Normal token => (RegisterPage.setLoading false form1,
                           signIn P token (fromWorld c w2))
        | Throw err => (RegisterPage.failed P err form1, fromWorld c w2)
        end
    end.
Proof.
  unfold registrationValid, RegisterPage.handleSubmit.
  cbn [RegisterPage.email RegisterPage.password RegisterPage.confirmPassword
       RegisterPage.setError RegisterPage.setLoading RegisterPage.setSuccess].
  intros H. apply andb_true_iff in H as [H H4].
  apply andb_true_iff in H as [H H3]. apply andb_true_iff in H as [H1 H2].
  apply negb_true_iff in H1. rewrite H1, H2, H3, H4. reflexivity.
Qed.

(** X25: a failed registration stops the handler.  With valid input and a
    rejected registration request, exactly one request was sent and the
    login call is not attempted; the form reports the backend's error
    string, with the spinner and the success notice off, and the session
    flag is as before. *)
Theorem register_failure_stops
    (P : Platform) (form : RegisterPage.Form) (c : Client) (e : AxiosError) :
  registrationValid form = true ->
  settle (nextAnswer (toWorld c)) = Rejected e ->
  let form' := fst (RegisterPage.handleSubmit P form c) in
  let c' := snd (RegisterPage.handleSubmit P form c) in
  requests c' =
    requests c ++ [onRequest (AuthContext.browser (session c))
                     (registerRequest (RegisterPage.email form)
                        (RegisterPage.password form))] /\
  answers c' = tail (answers c) /\
  (forall s, backendError (CaughtAxios e) = Some (JStr s) -> s <> [] ->
     RegisterPage.error form' = Some s) /\
  (backendError (CaughtAxios e) = None ->
     RegisterPage.error form' = Some (lit "Registration failed. Please try again.")) /\
  RegisterPage.loading form' = false /\
  RegisterPage.success form' = false /\
  AuthContext.isAuthenticated (session c') = AuthContext.isAuthenticated (session c) /\
  (is401 e = false -> session c' = session c).
Proof.
  intros Hv Hr. cbv zeta. rewrite (register_valid_unfold P form c Hv).
  cbv zeta. unfold authService.register.
  rewrite api_call_whole, request_world, Hr.
  remember (errorMessage (lit "Registration failed. Please try again.")
              (CaughtAxios e)) as msg eqn:Hmsg.
  remember (fst (onResponseError e (browser (toWorld c)))) as b' eqn:Hb'.
  unfold fromWorld, RegisterPage.failed.
  cbn [fst snd RegisterPage.error RegisterPage.loading RegisterPage.success
       RegisterPage.setLoading RegisterPage.setError RegisterPage.setSuccess
       session AuthContext.isAuthenticated AuthContext.browser requests answers
       browser backend sent toWorld].
  unfold errorMessage in Hmsg.
  repeat apply conj; try reflexivity.
  - intros s Hs Hne. rewrite Hs in Hmsg. subst msg.
    destruct s; [contradiction|reflexivity].
  - intros Hn. rewrite Hn in Hmsg. subst msg. reflexivity.
  - intros H4. subst b'. cbn [toWorld browser].
    rewrite (onResponseError_other e _ H4).
    destruct (session c) as [b f]. reflexivity.
Qed.

Lemma register_failure_stops_witness :
  let c := visitor (lit "/register")
             [Responds {| status := 409;
                response_data := Some (JObj [(lit "error", JStr (lit "User already exists"))]) |};
              okWith (JObj [(lit "token", JStr (lit "x.y.z"))])] in
  registrationValid newUser = true /\
  length (requests (snd (RegisterPage.handleSubmit somePlatform newUser c))) = 1%nat /\
  RegisterPage.error (fst (RegisterPage.handleSubmit somePlatform newUser c)) =
    Some (lit "User already exists").
Proof.
  cbv zeta. split; [reflexivity|].
  destruct (register_failure_stops somePlatform newUser
              (visitor (lit "/register")
                 [Responds {| status := 409;
                    response_data := Some (JObj [(lit "error", JStr (lit "User already exists"))]) |};
                  okWith (JObj [(lit "token", JStr (lit "x.y.z"))])])
              _ eq_refl eq_refl)
    as (Hreq & _ & Hs & _).
  split.
  - rewrite Hreq. reflexivity.
  - apply Hs; [reflexivity|discriminate].
Defined.

Lemma whole_call_fulfilled config fallback b a rest log r :
  settle a = Fulfilled r ->
  api_call config whole fallback
    {| browser := b; backend := a :: rest; sent := log |} =
    ({| browser := b; backend := rest; sent := log ++ [onRequest b config] |},
     Normal (response_data r)).
Proof.
  intros H. rewrite api_call_whole, request_world.
  unfold nextAnswer. cbn [backend browser sent tail]. rewrite H. reflexivity.
Qed.

(** X26: a successful registration, end to end.  With valid input, a 2xx
    answer to the registration and a 2xx answer to the login whose body
    carries a string [token], two requests go out, registration first and
    login second with the same credentials; afterwards the Token Store holds
    the token, the session is Authenticated on [/instances], and the form
    shows the success notice and neither spinner nor error. *)
Theorem register_then_login
    (P : Platform) (form : RegisterPage.Form) (c : Client)
    (r1 r2 : AxiosResponse) (rest : list Answer)
    (members : list (jsstring * JsValue)) (token : jsstring) :
  registrationValid form = true ->
  answers c = Responds r1 :: Responds r2 :: rest ->
  200 <= status r1 < 300 -> 200 <= status r2 < 300 ->
  response_data r2 = Some (JObj members) ->
  get_member (lit "token") members = Some (JStr token) ->
  let form' := fst (RegisterPage.handleSubmit P form c) in
  let c' := snd (RegisterPage.handleSubmit P form c) in
  requests c' =
    requests c ++
      [onRequest (AuthContext.browser (session c))
         (registerRequest (RegisterPage.email form) (RegisterPage.password form));
       onRequest (AuthContext.browser (session c))
         (loginRequest (RegisterPage.email form) (RegisterPage.password form))] /\
  answers c' = rest /\
  storage.getToken (localStorage (AuthContext.browser (session c'))) = Some token /\
  AuthContext.isAuthenticated (session c') = true /\
  pathname (AuthContext.browser (session c')) = lit "/instances" /\
  RegisterPage.success form' = true /\
  RegisterPage.loading form' = false /\
  RegisterPage.error form' = None.
Proof.
  intros Hv Ha Hs1 Hs2 Hd Ht. cbv zeta.
  rewrite (register_valid_unfold P form c Hv). cbv zeta.
  unfold authService.register, authService.login, toWorld. rewrite Ha.
  rewrite (whole_call_fulfilled _ _ _ _ _ _ r1 (settle_ok r1 Hs1)).
  rewrite (whole_call_fulfilled _ _ _ _ _ _ r2 (settle_ok r2 Hs2)).
  cbn [bind]. unfold field. rewrite Hd. cbn [get_prop]. rewrite Ht.
  unfold signIn, onSession, fromWorld. simpl.
  rewrite getToken_setToken, <- app_assoc. repeat split.
Qed.

Lemma register_then_login_witness :
  let c := visitor (lit "/register")
             [okWith (JObj [(lit "message", JStr (lit "created"))]);
              okWith (JObj [(lit "token", JStr (lit "x.y.z"))])] in
  registrationValid newUser = true /\
  storage.getToken (localStorage (AuthContext.browser
    (session (snd (RegisterPage.handleSubmit somePlatform newUser c))))) =
    Some (lit "x.y.z") /\
  length (requests (snd (RegisterPage.handleSubmit somePlatform newUser c))) = 2%nat.
Proof.
  cbv zeta. split; [reflexivity|].
  destruct (register_then_login somePlatform newUser
              (visitor (lit "/register")
                 [okWith (JObj [(lit "message", JStr (lit "created"))]);
                  okWith (JObj [(lit "token", JStr (lit "x.y.z"))])])
              {| status := 200;
                 response_data := Some (JObj [(lit "message", JStr (lit "created"))]) |}
              {| status := 200;
                 response_data := Some (JObj [(lit "token", JStr (lit "x.y.z"))]) |}
              [] [(lit "token", JStr (lit "x.y.z"))] (lit "x.y.z"))
    as (Hreq & _ & Htok & _); try reflexivity; try (simpl; lia).
  split; [exact Htok|]. rewrite Hreq. reflexivity.
Defined.

End RegisterExtras.

(** ** The polling timer *)

Section PollingExtras.
Import InstanceMetricsPage polling.

Lemma startFetch_frame id bg s :
  instanceId (startFetch id bg s) = instanceId s /\
  pollingIntervalRef (startFetch id bg s) = pollingIntervalRef s /\
  intervals (startFetch id bg s) = intervals s /\
  nextId (startFetch id bg s) = nextId s /\
  hasCleanup (startFetch id bg s) = hasCleanup s.
Proof. unfold startFetch. destruct (missing id); repeat split. Qed.

Lemma tidy_effect s :
  pollingIntervalRef s = None -> intervals s = [] ->
  tidy (effect s).
Proof.
  intros Hr Hi. unfold tidy, effect.
  destruct (missing (instanceId s)) eqn:Hm.
  - simpl. rewrite Hr. auto.
  - unfold startFetch. rewrite Hm. simpl. rewrite Hi. auto.
Qed.

Lemma tidy_mount first id : tidy (mount first id).
Proof. apply tidy_effect; reflexivity. Qed.

Lemma cleanup_tidy s :
  tidy s ->
  pollingIntervalRef (runCleanup s) = None /\ intervals (runCleanup s) = [].
Proof.
  unfold tidy, runCleanup, cleanup.
  destruct (pollingIntervalRef s) as [n|] eqn:Hr.
  - intros (Hi & -> & _). simpl. rewrite Hi. simpl.
    rewrite Pos.eqb_refl. auto.
  - intros (Hi & -> & _). auto.
Qed.

Lemma tidy_step s e : tidy s -> tidy (step s e).
Proof.
  intros Ht. destruct e as [id|n]; simpl.
  - unfold routeChange. case_bool_decide; [exact Ht|].
    destruct (cleanup_tidy s Ht) as (Hr & Hi).
    apply tidy_effect; assumption.
  - unfold tick. destruct (List.find _ (intervals s)) as [[m id]|]; [|exact Ht].
    unfold tidy in *.
    destruct (startFetch_frame id true s) as (-> & -> & -> & _ & ->).
    exact Ht.
Qed.

Lemma tidy_run events : forall s, tidy s -> tidy (run events s).
Proof.
  induction events as [|e events IH]; intros s Ht; [exact Ht|].
  apply IH, tidy_step, Ht.
Qed.

(** X27: the screen never holds more than one timer.  After any sequence of
    route changes and timer ticks there is at most one live interval, it is
    the one the ref points to and it fetches the current instance; there is
    none while the route has no instance id; and tearing the screen down
    leaves no interval behind. *)
Theorem polling_single_timer
    (first : positive) (id : option jsstring) (events : list Event) :
  let s := run events (mount first id) in
  (length (intervals s) <= 1)%nat /\
  (forall n i, In (n, i) (intervals s) ->
     i = instanceId s /\ pollingIntervalRef s = Some n /\ missing i = false) /\
  (missing (instanceId s) = true -> intervals s = []) /\
  intervals (unmount s) = [] /\
  pollingIntervalRef (unmount s) = None.
Proof.
  cbv zeta. pose proof (tidy_run events _ (tidy_mount first id)) as Ht.
  destruct (cleanup_tidy _ Ht) as (Hr & Hi).
  unfold tidy in Ht.
  destruct (pollingIntervalRef (run events (mount first id))) as [n|].
  - destruct Ht as (-> & _ & Hm). repeat split; simpl; try assumption.
    + lia.
    + destruct H as [[= <- <-]|[]]. reflexivity.
    + destruct H as [[= <- <-]|[]]. reflexivity.
    + destruct H as [[= <- <-]|[]]. exact Hm.
    + congruence.
  - destruct Ht as (-> & _ & _). repeat split; simpl; try assumption;
      try lia; try contradiction.
Qed.

(** X28: no stale polling.  Whatever happened before, a timer tick starts at
    most one fetch, a background one for the instance the screen shows now;
    it never shows the loading indicator. *)
Theorem tick_fetches_current_instance
    (first : positive) (id : option jsstring) (events : list Event) (n : positive) :
  let s := run events (mount first id) in
  (started (tick n s) = started s \/
   started (tick n s) = started s ++ [(instanceId s, true)]) /\
  loading (page (tick n s)) = loading (page s) /\
  intervals (tick n s) = intervals s.
Proof.
  cbv zeta. pose proof (tidy_run events _ (tidy_mount first id)) as Ht.
  set (s := run events (mount first id)) in *.
  unfold tick. destruct (List.find _ (intervals s)) as [[m i]|] eqn:Hf;
    [|repeat split; auto].
  apply find_some in Hf as [Hin _].
  unfold tidy in Ht. destruct (pollingIntervalRef s) as [k|].
  - destruct Ht as (Hi & _ & Hm). rewrite Hi in Hin.
    destruct Hin as [[= <- <-]|[]].
    unfold startFetch. rewrite Hm. simpl. repeat split; auto.
  - destruct Ht as (Hi & _). rewrite Hi in Hin. destruct Hin.
Qed.

(** X29: a route without an instance id.  The screen then reports
    [Instance ID is missing], shows no spinner, starts no fetch and no timer. *)
Theorem mount_without_instance (first : positive) (id : option jsstring) :
  missing id = true ->
  error (page (mount first id)) = Some (lit "Instance ID is missing") /\
  loading (page (mount first id)) = false /\
  started (mount first id) = [] /\
  intervals (mount first id) = [] /\
  (forall n, tick n (mount first id) = mount first id).
Proof.
  intros Hm. unfold mount, effect. simpl. rewrite Hm. simpl.
  repeat split.
Qed.

Lemma mount_without_instance_witness :
  missing (Some []) = true /\
  error (page (mount 1 (Some []))) = Some (lit "Instance ID is missing") /\
  loading (page (mount 1 (Some []))) = false.
Proof.
  split; [reflexivity|].
  destruct (mount_without_instance 1 (Some []) eq_refl) as (H1 & H2 & _).
  split; assumption.
Defined.

(** The scenario of a route change from [i-1] to [i-2]: the first timer is
    cleared, and a tick of the second fetches [i-2]. *)
Example polling_route_change :
  let s := run [RouteChange (Some (lit "i-2")); Tick 1; Tick 2]
             (mount 1 (Some (lit "i-1"))) in
  intervals s = [(2%positive, Some (lit "i-2"))] /\
  started s = [(Some (lit "i-1"), false); (Some (lit "i-2"), false);
               (Some (lit "i-2"), true)].
Proof. split; reflexivity. Qed.

End PollingExtras.

(** ** The instance list *)

Section InstanceListExtras.
Import InstancesListPage.

(** X30: the list update after starting or stopping monitoring.  The list
    keeps its length and the instance ids in their order; every entry with
    the target id (there may be several) gets the new flag and keeps its
    other fields, every other entry is untouched; the update is idempotent,
    and a later update for the same id overrides an earlier one. *)
Theorem markMonitoring_spec
    (target : jsstring) (value value' : bool) (prev : list Instance) :
  length (markMonitoring target value prev) = length prev /\
  map instance_id (markMonitoring target value prev) = map instance_id prev /\
  (forall i inst, nth_error prev i = Some inst ->
     nth_error (markMonitoring target value prev) i =
       Some (if jsstring_eqb (instance_id inst) target
             then withMonitoring value inst else inst)) /\
  markMonitoring target value (markMonitoring target value prev) =
    markMonitoring target value prev /\
  markMonitoring target value' (markMonitoring target value prev) =
    markMonitoring target value' prev.
Proof.
  unfold markMonitoring. repeat apply conj.
  - apply length_map.
  - rewrite map_map. apply map_ext. intros inst.
    destruct (jsstring_eqb (instance_id inst) target); reflexivity.
  - intros i inst H. rewrite nth_error_map, H. reflexivity.
  - rewrite map_map. apply map_ext. intros inst.
    destruct (jsstring_eqb (instance_id inst) target) eqn:He; simpl; rewrite He;
      reflexivity.
  - rewrite map_map. apply map_ext. intros inst.
    destruct (jsstring_eqb (instance_id inst) target) eqn:He; simpl; rewrite He;
      reflexivity.
Qed.

End InstanceListExtras.
